(** * alaska-engine: the renderer front end and its render metadata

    A shallow embedding of [engine/renderer/renderer.go] (the package-level
    renderer singleton and its frame lifecycle functions) and of the render
    metadata declarations (render passes, views, packets, clear flags).

    Go values are modelled as follows:
    - [uint8]/[uint16]/[uint32]/[uint64] values are [Z];
    - [float64] is Rocq's binary64 [float];
    - an [error] is [option string]: [None] is Go's [nil];
    - a pointer that may be [nil] is an [option];
    - package-level variables live in an explicit [World] that every
      function threads through; a nil dereference is the outcome
      [Panicked]. *)

From Stdlib Require Import ZArith Floats.
From stdpp Require Import base list strings.

Local Open Scope Z_scope.

Definition uint8 := Z.
Definition uint16 := Z.
Definition uint32 := Z.
Definition uint64 := Z.
Definition float64 := float.

(** Go's [error] interface, seen through [err.Error()]; [None] is [nil]. *)
Definition error := option string.

(** ** Package metadata *)

Module metadata.

Definition BUILTIN_SHADER_NAME_SKYBOX : string := "Shader.Builtin.Skybox".
Definition BUILTIN_SHADER_NAME_MATERIAL : string := "Shader.Builtin.Material".
Definition BUILTIN_SHADER_NAME_UI : string := "Shader.Builtin.UI".

(** [type RenderpassClearFlag uint32] and its four constants. *)
Definition RenderpassClearFlag := uint32.

Definition RENDERPASS_CLEAR_NONE_FLAG : RenderpassClearFlag := 0x0.
Definition RENDERPASS_CLEAR_COLOUR_BUFFER_FLAG : RenderpassClearFlag := 0x1.
Definition RENDERPASS_CLEAR_DEPTH_BUFFER_FLAG : RenderpassClearFlag := 0x2.
Definition RENDERPASS_CLEAR_STENCIL_BUFFER_FLAG : RenderpassClearFlag := 0x3.

(** Go's [a | b] on [RenderpassClearFlag]. *)
Definition flag_or (a b : RenderpassClearFlag) : RenderpassClearFlag :=
  Z.lor a b.

Inductive RenderViewKnownType :=
| RENDERER_VIEW_KNOWN_TYPE_WORLD
| RENDERER_VIEW_KNOWN_TYPE_UI
| RENDERER_VIEW_KNOWN_TYPE_SKYBOX.

Definition RenderViewKnownType_value (k : RenderViewKnownType) : Z :=
  match k with
  | RENDERER_VIEW_KNOWN_TYPE_WORLD => 0x01
  | RENDERER_VIEW_KNOWN_TYPE_UI => 0x02
  | RENDERER_VIEW_KNOWN_TYPE_SKYBOX => 0x03
  end.

(** [RenderView]: the fields the frame orchestration could observe.  The
    callback fields ([OnResize], [OnRender], [OnDestroy], ...) are function
    values owned by the view; calling one is recorded as an event carrying
    the view's [ID] (see [renderer.Event]). *)
Record RenderView := {
  ID : uint16;
  Name : string;
  Width : uint16;
  Height : uint16;
  RenderViewType : RenderViewKnownType;
  RenderpassCount : uint8;
  CustomShaderName : string
}.

(** [RenderViewPacket]: the back reference to the view and the counts; the
    matrices and the freeform payload play no part in orchestration. *)
Record RenderViewPacket := {
  View : RenderView;
  GeometryCount : uint32;
  CustomShadername : string
}.

(** [RenderPacket] as the metadata package declares it. *)
Record RenderPacket := {
  DeltaTime : float64;
  ViewCount : uint16;
  Views : list RenderViewPacket
}.

Record MemoryRange := {
  Offset : uint64;
  Size : uint64
}.

End metadata.

(** ** Package renderer *)

(** [type RendererBackend interface]: five methods.  A backend is a stateful
    object; a method maps the state before the call to the returned [error]
    and the state after it. *)
Module RendererBackend.

Class t (B : Type) := {
  Initialize : string -> B -> error * B;
  Shutdow : B -> error * B;
  Resized : uint16 -> uint16 -> B -> error * B;
  BeginFrame : float64 -> B -> error * B;
  EndFrame : float64 -> B -> error * B
}.

End RendererBackend.

Module renderer.

Inductive RendererType := Vulkan | DirectX | Metal | OpenGL.

(** [const ( Vulkan RendererType = iota ... )] *)
Definition RendererType_value (t : RendererType) : uint8 :=
  match t with Vulkan => 0 | DirectX => 1 | Metal => 2 | OpenGL => 3 end.

(** [type Renderer struct { backend RendererBackend }] *)
Record Renderer (B : Type) := { backend : B }.
Arguments backend {B} _.

(** [type RenderPacket struct { DeltaTime float64 }], the parameter type of
    [DrawFrame]. *)
Record RenderPacket := { DeltaTime : float64 }.

(** What a run does to its collaborators, in the order it happens: the
    construction of a backend, the calls of backend methods, the lines
    handed to [core.LogError], and the calls of a view's callbacks (a view
    is named by its [metadata.ID]). *)
Inductive Event (Platform : Type) :=
| EvNew (platform : Platform)
| EvInitialize (appName : string)
| EvShutdow
| EvResized (width height : uint16)
| EvBeginFrame (deltaTime : float64)
| EvEndFrame (deltaTime : float64)
| EvLogError (msg : string)
| EvViewOnRender (view : uint16)
| EvViewOnResize (view : uint16) (width height : uint32)
| EvViewOnDestroy (view : uint16).
Arguments EvNew {Platform} _.
Arguments EvInitialize {Platform} _.
Arguments EvShutdow {Platform}.
Arguments EvResized {Platform} _ _.
Arguments EvBeginFrame {Platform} _.
Arguments EvEndFrame {Platform} _.
Arguments EvLogError {Platform} _.
Arguments EvViewOnRender {Platform} _.
Arguments EvViewOnResize {Platform} _ _ _.
Arguments EvViewOnDestroy {Platform} _.

(** The package-level state: [var initRenderer sync.Once] (has [Do] run
    its function), [var renderer *Renderer] ([None] is [nil]), and the
    events so far, oldest first. *)
Record World (Platform B : Type) := {
  initRenderer : bool;
  renderer : option (Renderer B);
  trace : list (Event Platform)
}.
Arguments initRenderer {Platform B} _.
Arguments renderer {Platform B} _.
Arguments trace {Platform B} _.

(** A call returns a value or panics. *)
Inductive Res (A : Type) := Ret (a : A) | Panicked.
Arguments Ret {A} _.
Arguments Panicked {A}.

Section Renderer.
Context {Platform B : Type} `{!RendererBackend.t B}.
(** [vulkan.New], the constructor of the backend. *)
Variable vulkan_New : Platform -> B.

(** The process before [main]: the zero values of the package variables. *)
Definition init_world : World Platform B :=
  {| initRenderer := false; renderer := None; trace := [] |}.

Definition M (A : Type) : Type :=
  World Platform B -> Res A * World Platform B.

#[global] Instance M_ret : MRet M := fun A a w => (Ret a, w).
#[global] Instance M_bind : MBind M := fun A C k m w =>
  match m w with
  | (Ret a, w') => k a w'
  | (Panicked, w') => (Panicked, w')
  end.

Definition panic {A} : M A := fun w => (Panicked, w).

Definition emit (e : Event Platform) : M unit := fun w =>
  (Ret tt, {| initRenderer := initRenderer w;
              renderer := renderer w;
              trace := trace w ++ [e] |}).

Definition set_renderer (r : Renderer B) : M unit := fun w =>
  (Ret tt, {| initRenderer := initRenderer w;
              renderer := Some r;
              trace := trace w |}).

(** [initRenderer.Do(f)]: [f] runs only if no [Do] has run it before;
    the once is marked done when [f] returns or panics. *)
Definition initRenderer_Do (f : M unit) : M unit := fun w =>
  if initRenderer w then (Ret tt, w)
  else
    let '(r, w') := f w in
    (r, {| initRenderer := true;
           renderer := renderer w';
           trace := trace w' |}).

(** [renderer.backend.m(...)]: the dereference of the singleton panics
    when it is nil; otherwise the method runs on the backend it holds. *)
Definition renderer_backend (e : Event Platform) (m : B -> error * B)
  : M error := fun w =>
  match renderer w with
  | None => (Panicked, w)
  | Some r =>
      (_ ← emit e;
       let '(err, b') := m (backend r) in
       _ ← set_renderer {| backend := b' |};
       mret err) w
  end.

(** The world after a backend method, recorded as [e], left the
    singleton's backend in state [b']. *)
Definition after_backend (w : World Platform B) (e : Event Platform)
    (b' : B) : World Platform B :=
  {| initRenderer := initRenderer w;
     renderer := Some {| backend := b' |};
     trace := trace w ++ [e] |}.

(** [core.LogError(msg)] *)
Definition core_LogError (msg : string) : M unit := emit (EvLogError msg).

Definition Initialize (appName : string) (platform : Platform) : M error :=
  _ ← initRenderer_Do
        (_ ← emit (EvNew platform);
         set_renderer {| backend := vulkan_New platform |});
  renderer_backend (EvInitialize appName)
    (RendererBackend.Initialize appName).

Definition Shutdown : M error :=
  renderer_backend EvShutdow RendererBackend.Shutdow.

Definition BeginFrame (deltaTime : float64) : M error :=
  renderer_backend (EvBeginFrame deltaTime)
    (RendererBackend.BeginFrame deltaTime).

Definition EndFrame (deltaTime : float64) : M error :=
  renderer_backend (EvEndFrame deltaTime)
    (RendererBackend.EndFrame deltaTime).

Definition OnResize (width height : uint16) : M error :=
  renderer_backend (EvResized width height)
    (RendererBackend.Resized width height).

(** [DrawFrame(renderPacket *RenderPacket)]: the argument of [BeginFrame]
    reads through the pointer first, so a nil packet panics. *)
Definition DrawFrame (renderPacket : option RenderPacket) : M error :=
  match renderPacket with
  | None => panic
  | Some p =>
      err ← BeginFrame (DeltaTime p);
      match err with
      | Some msg => _ ← core_LogError msg; mret (Some msg)
      | None =>
          err ← EndFrame (DeltaTime p);
          match err with
          | Some msg =>
              _ ← core_LogError
                    "RendererEndFrame failed. Application shutting down...";
              mret (Some msg)
          | None => mret None
          end
      end
  end.

(** *** Programs: a sequence of calls of the package's functions

    A panic that nobody recovers ends the process, so the calls after
    it do not run. *)
Inductive Call :=
| CInitialize (appName : string) (platform : Platform)
| CShutdown
| CBeginFrame (deltaTime : float64)
| CEndFrame (deltaTime : float64)
| COnResize (width height : uint16)
| CDrawFrame (renderPacket : option RenderPacket).

Definition call (c : Call) : M error :=
  match c with
  | CInitialize appName platform => Initialize appName platform
  | CShutdown => Shutdown
  | CBeginFrame deltaTime => BeginFrame deltaTime
  | CEndFrame deltaTime => EndFrame deltaTime
  | COnResize width height => OnResize width height
  | CDrawFrame renderPacket => DrawFrame renderPacket
  end.

Fixpoint run (cs : list Call) (w : World Platform B)
  : list (Res error) * World Platform B :=
  match cs with
  | [] => ([], w)
  | c :: cs' =>
      match call c w with
      | (Ret err, w') =>
          let '(rs, w'') := run cs' w' in (Ret err :: rs, w'')
      | (Panicked, w') => ([Panicked], w')
      end
  end.

Definition is_CInitialize (c : Call) : bool :=
  match c with CInitialize _ _ => true | _ => false end.

(** Two calls that differ at most in the platform handed to
    [Initialize]. *)
Definition same_but_platform (c1 c2 : Call) : Prop :=
  match c1, c2 with
  | CInitialize appName1 _, CInitialize appName2 _ => appName1 = appName2
  | _, _ => c1 = c2
  end.

(** The events a call adds to the trace. *)
Definition added (w w' : World Platform B) : list (Event Platform) :=
  drop (length (trace w)) (trace w').

(** *** Concurrent callers of [Initialize]

    Each goroutine runs [Initialize(appName, platform)]; a schedule picks
    which goroutine takes the next step.  [sync.Once] is its mutex and
    its done flag: [Fresh] (not done, unlocked), [Running] (not done,
    locked by the goroutine that runs the function), [Done].

    The call [renderer.backend.Initialize(appName)] is outside the once and
    takes no lock, so the calls of several goroutines overlap: making the
    call, the backend acting on it, and the call returning are three
    moments, and other goroutines may move in between.  The backend is an
    object outside this package; what is assumed of it is that each call
    acts on its state at one moment between the call and its return. *)
Inductive Once := Fresh | Running | Done.

Inductive Pc :=
| PcCall
  (** about to call [initRenderer.Do] *)
| PcInDo
  (** inside the function given to [Do], before [vulkan.New] *)
| PcBuilt (b : B)
  (** [vulkan.New] returned; [renderer] not assigned yet *)
| PcAssigned
  (** [renderer] assigned; [Do] has not marked the once done yet *)
| PcAfterDo
  (** [Do] returned; about to evaluate [renderer.backend.Initialize(...)] *)
| PcInBackend
  (** the backend's [Initialize] is called; the backend has not acted yet *)
| PcAnswered (err : error)
  (** the backend has acted; the call has not returned yet *)
| PcReturned (r : Res error).

Record Goroutine := {
  g_appName : string;
  g_platform : Platform;
  g_pc : Pc
}.

Record CWorld := {
  c_once : Once;
  c_renderer : option (Renderer B);
  c_trace : list (Event Platform);
  c_goroutines : list Goroutine
}.

Definition at_pc (g : Goroutine) (pc : Pc) : Goroutine :=
  {| g_appName := g_appName g; g_platform := g_platform g; g_pc := pc |}.

Definition spawn (arg : string * Platform) : Goroutine :=
  {| g_appName := arg.1; g_platform := arg.2; g_pc := PcCall |}.

Definition c_init (args : list (string * Platform)) : CWorld :=
  {| c_once := Fresh; c_renderer := None; c_trace := [];
     c_goroutines := spawn <$> args |}.

(** One step of goroutine [i].  A goroutine that waits for the once, one
    that has returned, and an index that names no goroutine leave the
    world as it is.  A goroutine inside the backend's [Initialize] went
    through the singleton when it made the call; no step sets [renderer]
    back to nil, and should the singleton be gone all the same the
    goroutine does not move. *)
Definition c_step (i : nat) (s : CWorld) : CWorld :=
  match c_goroutines s !! i with
  | None => s
  | Some g =>
      let move pc := <[i := at_pc g pc]> (c_goroutines s) in
      match g_pc g with
      | PcCall =>
          match c_once s with
          | Fresh =>
              {| c_once := Running; c_renderer := c_renderer s;
                 c_trace := c_trace s; c_goroutines := move PcInDo |}
          | Running => s
          | Done =>
              {| c_once := Done; c_renderer := c_renderer s;
                 c_trace := c_trace s; c_goroutines := move PcAfterDo |}
          end
      | PcInDo =>
          {| c_once := c_once s; c_renderer := c_renderer s;
             c_trace := c_trace s ++ [EvNew (g_platform g)];
             c_goroutines := move (PcBuilt (vulkan_New (g_platform g))) |}
      | PcBuilt b =>
          {| c_once := c_once s;
             c_renderer := Some {| backend := b |};
             c_trace := c_trace s; c_goroutines := move PcAssigned |}
      | PcAssigned =>
          {| c_once := Done; c_renderer := c_renderer s;
             c_trace := c_trace s; c_goroutines := move PcAfterDo |}
      | PcAfterDo =>
          match c_renderer s with
          | None =>
              {| c_once := c_once s; c_renderer := None;
                 c_trace := c_trace s;
                 c_goroutines := move (PcReturned Panicked) |}
          | Some _ =>
              {| c_once := c_once s; c_renderer := c_renderer s;
                 c_trace := c_trace s ++ [EvInitialize (g_appName g)];
                 c_goroutines := move PcInBackend |}
          end
      | PcInBackend =>
          match c_renderer s with
          | None => s
          | Some r =>
              let '(err, b') :=
                RendererBackend.Initialize (g_appName g) (backend r) in
              {| c_once := c_once s;
                 c_renderer := Some {| backend := b' |};
                 c_trace := c_trace s;
                 c_goroutines := move (PcAnswered err) |}
          end
      | PcAnswered err =>
          {| c_once := c_once s; c_renderer := c_renderer s;
             c_trace := c_trace s;
             c_goroutines := move (PcReturned (Ret err)) |}
      | PcReturned _ => s
      end
  end.

Definition c_run (schedule : list nat) (s : CWorld) : CWorld :=
  foldl (fun s i => c_step i s) s schedule.

(** Backends constructed so far: the [vulkan.New] calls in a trace. *)
Definition is_EvNew (e : Event Platform) : bool :=
  match e with EvNew _ => true | _ => false end.

Definition constructions (t : list (Event Platform)) : nat :=
  length (filter (fun e => is_EvNew e = true) t).

Definition past_Do (pc : Pc) : bool :=
  match pc with
  | PcAfterDo | PcInBackend | PcAnswered _ | PcReturned _ => true
  | _ => false
  end.

(** Inside the function given to [Do]. *)
Definition building (pc : Pc) : bool :=
  match pc with PcInDo | PcBuilt _ | PcAssigned => true | _ => false end.

Definition g_args (g : Goroutine) : string * Platform :=
  (g_appName g, g_platform g).

(** The first goroutine of a schedule that exists: the first caller. *)
Fixpoint first_caller (n : nat) (schedule : list nat) : option nat :=
  match schedule with
  | [] => None
  | i :: rest => if decide (i < n)%nat then Some i else first_caller n rest
  end.

(** The name a goroutine has handed to the backend's [Initialize], once it
    has made that call. *)
Definition called_name (g : Goroutine) : option string :=
  match g_pc g with
  | PcInBackend | PcAnswered _ | PcReturned (Ret _) => Some (g_appName g)
  | _ => None
  end.

(** The name and the backend's answer, once the backend has acted on a
    goroutine's call. *)
Definition answered (g : Goroutine) : option (string * error) :=
  match g_pc g with
  | PcAnswered err | PcReturned (Ret err) => Some (g_appName g, err)
  | _ => None
  end.

Definition c_called (s : CWorld) : list string :=
  omap called_name (c_goroutines s).

Definition c_answered (s : CWorld) : list (string * error) :=
  omap answered (c_goroutines s).

(** The sequential world right after the first caller's [Do]. *)
Definition after_Do (platform : Platform) : World Platform B :=
  {| initRenderer := true;
     renderer := Some {| backend := vulkan_New platform |};
     trace := [EvNew platform] |}.

(** [Initialize] calls made in a row, with the given names and all with one
    platform. *)
Definition calls_as (platform : Platform) (done : list (string * error))
  : list Call :=
  (fun x => CInitialize x.1 platform) <$> done.

(** What holds of every world in which goroutine [k] was the first to
    enter [Do]: while the once is running, [k] alone is inside the
    function, and the trace and the singleton follow its progress; once
    it is done, nobody is inside the function and nobody has panicked, the
    trace is the one construction followed by the calls made so far, and
    the singleton is what [Initialize], called in a row in the order in
    which the backend acted, leaves of the backend built from [k]'s
    platform, with the answers the goroutines got. *)
Definition c_inv (args : list (string * Platform)) (k : nat) (s : CWorld)
  : Prop :=
  g_args <$> c_goroutines s = args
  /\ exists gk, c_goroutines s !! k = Some gk
     /\ match c_once s with
        | Fresh => False
        | Running =>
            (forall j g, j <> k -> c_goroutines s !! j = Some g ->
                         g_pc g = PcCall)
            /\ match g_pc gk with
               | PcInDo => c_renderer s = None /\ c_trace s = []
               | PcBuilt b =>
                   b = vulkan_New (g_platform gk)
                   /\ c_renderer s = None
                   /\ c_trace s = [EvNew (g_platform gk)]
               | PcAssigned =>
                   c_renderer s
                   = Some {| backend := vulkan_New (g_platform gk) |}
                   /\ c_trace s = [EvNew (g_platform gk)]
               | _ => False
               end
        | Done =>
            exists called done r w',
              c_trace s
              = EvNew (g_platform gk) :: (EvInitialize <$> called)
              /\ called ≡ₚ c_called s
              /\ done ≡ₚ c_answered s
              /\ run (calls_as (g_platform gk) done)
                     (after_Do (g_platform gk))
                 = ((fun x => Ret x.2) <$> done, w')
              /\ initRenderer w' = true
              /\ renderer w' = Some r
              /\ c_renderer s = Some r
              /\ forall j g, c_goroutines s !! j = Some g ->
                   building (g_pc g) = false
                   /\ g_pc g <> PcReturned Panicked
        end.

(** *** Measures of a run *)

(** The [*RenderPacket] argument of a [DrawFrame] call is nil. *)
Definition is_nil_packet (c : Call) : bool :=
  match c with CDrawFrame None => true | _ => false end.

Definition is_Ret {A : Type} (r : Res A) : bool :=
  match r with Ret _ => true | Panicked => false end.

Definition is_EvLogError (e : Event Platform) : bool :=
  match e with EvLogError _ => true | _ => false end.

(** Lines handed to [core.LogError] in a trace. *)
Definition log_lines (t : list (Event Platform)) : nat :=
  length (filter (fun e => is_EvLogError e = true) t).

Definition is_EvInitialize (e : Event Platform) : bool :=
  match e with EvInitialize _ => true | _ => false end.

(** Calls of the backend's [Initialize] in a trace. *)
Definition backend_initializations (t : list (Event Platform)) : nat :=
  length (filter (fun e => is_EvInitialize e = true) t).

(** Calls of the package's [Initialize] in a program. *)
Definition Initialize_calls (cs : list Call) : nat :=
  length (filter (fun c => is_CInitialize c = true) cs).

(** Steps a goroutine at [pc] can still take, at most. *)
Definition c_weight (pc : Pc) : nat :=
  match pc with
  | PcCall => 7
  | PcInDo => 6
  | PcBuilt _ => 5
  | PcAssigned => 4
  | PcAfterDo => 3
  | PcInBackend => 2
  | PcAnswered _ => 1
  | PcReturned _ => 0
  end.

Definition c_measure (s : CWorld) : nat :=
  sum_list (c_weight ∘ g_pc <$> c_goroutines s).

Definition has_returned (pc : Pc) : bool :=
  match pc with PcReturned _ => true | _ => false end.

(** Goroutines whose [Initialize] has returned (or panicked). *)
Definition c_returned (s : CWorld) : nat :=
  sum_list ((fun g => if has_returned (g_pc g) then 1 else 0)%nat
              <$> c_goroutines s).

(** The program that makes the goroutines' calls one after another, and the
    schedule that lets goroutine 0 run to its end, then goroutine 1, and so
    on ([first] is the index of the first goroutine still to run; a
    goroutine needs at most seven steps). *)
Definition calls_of (args : list (string * Platform)) : list Call :=
  (fun arg => CInitialize arg.1 arg.2) <$> args.

Definition in_turn (first n : nat) : list nat :=
  seq first n ≫= replicate 7.





End Renderer.

End renderer.

(** ** Stand-in backends

    The Vulkan backend is outside this development; the renderer is verified
    for every implementation of the interface.  Two implementations serve as
    concrete inputs. *)

(** A backend that answers each method call with the next entry of a script
    (and with [nil] once the script is used up).  Its platform is the script
    it is constructed with. *)
Module Scripted.

Record t := { script : list error }.

Definition answer (b : t) : error * t :=
  match script b with
  | [] => (None, b)
  | e :: es => (e, {| script := es |})
  end.

#[global] Instance backend : RendererBackend.t t := {|
  RendererBackend.Initialize _ := answer;
  RendererBackend.Shutdow := answer;
  RendererBackend.Resized _ _ := answer;
  RendererBackend.BeginFrame _ := answer;
  RendererBackend.EndFrame _ := answer
|}.

Definition New (platform : list error) : t := {| script := platform |}.

End Scripted.

(** A backend that keeps the frame protocol itself: it refuses a
    [BeginFrame] while a frame is open and an [EndFrame] while none is. *)
Module Strict.

Record t := { frame_open : bool }.

#[global] Instance backend : RendererBackend.t t := {|
  RendererBackend.Initialize _ b := (None, b);
  RendererBackend.Shutdow b := (None, b);
  RendererBackend.Resized _ _ b := (None, b);
  RendererBackend.BeginFrame _ b :=
    if frame_open b then (Some "frame already begun", b)
    else (None, {| frame_open := true |});
  RendererBackend.EndFrame _ b :=
    if frame_open b then (None, {| frame_open := false |})
    else (Some "no frame begun", b)
|}.

Definition New (platform : unit) : t := {| frame_open := false |}.

End Strict.

(** ** The specification's reading of the operations

    These definitions follow the specification's words, not the code; the
    theorems below compare them with the code. *)
Module Spec.

Import renderer.

(** "destroys views in reverse creation order, then the backend". *)
Definition shutdown {Platform} (views : list metadata.RenderView)
  : list (Event Platform) :=
  (EvViewOnDestroy ∘ metadata.ID <$> reverse views) ++ [EvShutdow].

(** A subset of the clear buffers {colour, depth, stencil}. *)
Record ClearSet := {
  colour : bool;
  depth : bool;
  stencil : bool
}.

Definition nonempty (s : ClearSet) : bool :=
  colour s || depth s || stencil s.

(** The flag value of a subset: the OR of its members' flags. *)
Definition combined (s : ClearSet) : metadata.RenderpassClearFlag :=
  metadata.flag_or
    (if colour s then metadata.RENDERPASS_CLEAR_COLOUR_BUFFER_FLAG
     else metadata.RENDERPASS_CLEAR_NONE_FLAG)
    (metadata.flag_or
       (if depth s then metadata.RENDERPASS_CLEAR_DEPTH_BUFFER_FLAG
        else metadata.RENDERPASS_CLEAR_NONE_FLAG)
       (if stencil s then metadata.RENDERPASS_CLEAR_STENCIL_BUFFER_FLAG
        else metadata.RENDERPASS_CLEAR_NONE_FLAG)).

(** "every non-empty subset has a distinct combined flag value". *)
Definition flags_independent : Prop :=
  forall s1 s2 : ClearSet,
    nonempty s1 = true -> nonempty s2 = true -> s1 <> s2 ->
    combined s1 <> combined s2.

Definition is_EvInitialize {Platform} (e : Event Platform) : bool :=
  match e with EvInitialize _ => true | _ => false end.

(** Calls of the backend's [Initialize] in a trace. *)
Definition initializations {Platform} (t : list (Event Platform)) : nat :=
  length (filter (fun e => is_EvInitialize e = true) t).

End Spec.

(** ** Concrete inputs *)
Module Fixtures.

Import renderer.

Definition world_view : metadata.RenderView := {|
  metadata.ID := 1;
  metadata.Name := "world";
  metadata.Width := 1280;
  metadata.Height := 720;
  metadata.RenderViewType := metadata.RENDERER_VIEW_KNOWN_TYPE_WORLD;
  metadata.RenderpassCount := 2;
  metadata.CustomShaderName := ""
|}.

Definition skybox_view : metadata.RenderView := {|
  metadata.ID := 2;
  metadata.Name := "skybox";
  metadata.Width := 1280;
  metadata.Height := 720;
  metadata.RenderViewType := metadata.RENDERER_VIEW_KNOWN_TYPE_SKYBOX;
  metadata.RenderpassCount := 1;
  metadata.CustomShaderName := ""
|}.

(** A renderer initialised on a scripted backend whose script starts with
    the answer to that first [Initialize]. *)
Definition ready (script : list error) : World (list error) Scripted.t :=
  (Initialize Scripted.New "app" (None :: script) init_world).2.

(** A renderer initialised on the strict backend. *)
Definition ready_strict : World unit Strict.t :=
  (Initialize Strict.New "app" tt init_world).2.

End Fixtures.

(** * Verification *)

Import renderer.

(** Unfold the monad's plumbing and reassociate the trace. *)
Ltac run_M :=
  cbv [mbind M_bind core_LogError emit set_renderer mret M_ret
       after_backend];
  simpl; rewrite <- ?app_assoc; simpl; try reflexivity.

(** An event of one kind is not in a short, explicit trace of other kinds. *)
Ltac absent :=
  match goal with
  | Hin : _ ∈ _ |- _ =>
      repeat (apply elem_of_cons in Hin as [Hin|Hin]; [discriminate Hin|]);
      by apply elem_of_nil in Hin
  end.

(** ** Clear flags *)

Lemma RENDERPASS_CLEAR_NONE_FLAG_zero : metadata.RENDERPASS_CLEAR_NONE_FLAG = 0.
Proof. reflexivity. Qed.

Lemma flag_or_none_l (f : metadata.RenderpassClearFlag) :
  metadata.flag_or metadata.RENDERPASS_CLEAR_NONE_FLAG f = f.
Proof. unfold metadata.flag_or. apply Z.lor_0_l. Qed.

(** The colour and depth flags are single, different bits. *)
Lemma colour_depth_bits :
  metadata.RENDERPASS_CLEAR_COLOUR_BUFFER_FLAG = Z.shiftl 1 0
  /\ metadata.RENDERPASS_CLEAR_DEPTH_BUFFER_FLAG = Z.shiftl 1 1.
Proof. split; reflexivity. Qed.

(** C7: the clear flags are meant to be independent OR-able bits with every
    non-empty subset of {colour, depth, stencil} having its own value.  The code
    gives the stencil flag the value 0x3, which is the OR of the colour flag
    and the depth flag: the subsets {stencil} and {colour, depth} (and all
    the subsets that contain stencil) share the value 3, so the flags are not
    independent, although the none flag is the zero value. *)
Theorem C7_stencil_flag_is_colour_or_depth :
  metadata.RENDERPASS_CLEAR_NONE_FLAG = 0
  /\ metadata.RENDERPASS_CLEAR_STENCIL_BUFFER_FLAG
     = metadata.flag_or metadata.RENDERPASS_CLEAR_COLOUR_BUFFER_FLAG
         metadata.RENDERPASS_CLEAR_DEPTH_BUFFER_FLAG
  /\ Spec.combined {| Spec.colour := false; Spec.depth := false;
                      Spec.stencil := true |}
     = Spec.combined {| Spec.colour := true; Spec.depth := true;
                        Spec.stencil := false |}
  /\ ~ Spec.flags_independent.
Proof.
  repeat split; try reflexivity.
  intros Hind.
  refine (Hind {| Spec.colour := false; Spec.depth := false;
                  Spec.stencil := true |}
               {| Spec.colour := true; Spec.depth := true;
                  Spec.stencil := false |} _ _ _ _);
    try reflexivity.
  discriminate.
Qed.

(** ** The sequential functions *)

Section Sequential.
Context {Platform B : Type} `{!RendererBackend.t B}.
Variable vulkan_New : Platform -> B.

Implicit Types (w : World Platform B) (r : Renderer B).

Lemma renderer_backend_nil w e m :
  renderer w = None -> renderer_backend e m w = (Panicked, w).
Proof. intros Hnil. unfold renderer_backend. by rewrite Hnil. Qed.

Lemma renderer_backend_some w r e m :
  renderer w = Some r ->
  renderer_backend e m w
  = (Ret (m (backend r)).1, after_backend w e (m (backend r)).2).
Proof.
  intros Hr. unfold renderer_backend. rewrite Hr.
  destruct (m (backend r)) as [err b'] eqn:Hm.
  reflexivity.
Qed.

Lemma added_app w w' l : trace w' = trace w ++ l -> added w w' = l.
Proof. intros Heq. unfold added. rewrite Heq. apply drop_app_length. Qed.

(** What [DrawFrame] does on a constructed renderer, by the outcome of the
    two backend calls. *)
Lemma DrawFrame_some w r p :
  renderer w = Some r ->
  let dt := DeltaTime p in
  let begun := RendererBackend.BeginFrame dt (backend r) in
  let ended := RendererBackend.EndFrame dt begun.2 in
  DrawFrame (Some p) w =
    match begun.1 with
    | Some msg =>
        (Ret (Some msg),
         {| initRenderer := initRenderer w;
            renderer := Some {| backend := begun.2 |};
            trace := trace w ++ [EvBeginFrame dt; EvLogError msg] |})
    | None =>
        match ended.1 with
        | Some msg =>
            (Ret (Some msg),
             {| initRenderer := initRenderer w;
                renderer := Some {| backend := ended.2 |};
                trace := trace w ++
                  [EvBeginFrame dt; EvEndFrame dt;
                   EvLogError
                     "RendererEndFrame failed. Application shutting down..."] |})
        | None =>
            (Ret None,
             {| initRenderer := initRenderer w;
                renderer := Some {| backend := ended.2 |};
                trace := trace w ++ [EvBeginFrame dt; EvEndFrame dt] |})
        end
    end.
Proof.
  intros Hr dt begun ended. unfold DrawFrame, BeginFrame, EndFrame.
  unfold mbind at 1. unfold M_bind at 1.
  rewrite (renderer_backend_some _ _ _ _ Hr). fold dt. fold begun.
  destruct (begun.1) as [msg|] eqn:Hb; simpl.
  - run_M.
  - unfold mbind at 1. unfold M_bind at 1.
    rewrite (renderer_backend_some (after_backend w _ _) _ _ _ eq_refl).
    simpl. fold ended.
    destruct (ended.1) as [msg|] eqn:He; simpl.
    + run_M.
    + run_M.
Qed.

(** *** Calls on a nil singleton *)

Lemma call_nil w c :
  is_CInitialize c = false -> renderer w = None ->
  call vulkan_New c w = (Panicked, w).
Proof.
  intros Hc Hnil. destruct c as [a pf| | | | |[p|]]; try discriminate; simpl;
    unfold Shutdown, BeginFrame, EndFrame, OnResize, DrawFrame;
    try (by apply renderer_backend_nil).
  - unfold BeginFrame, mbind, M_bind.
    by rewrite (renderer_backend_nil _ _ _ Hnil).
  - reflexivity.
Qed.

Lemma run_without_Initialize cs :
  Forall (fun c => is_CInitialize c = false) cs ->
  (run vulkan_New cs init_world).2 = init_world.
Proof.
  intros Hcs. destruct Hcs as [|c cs Hc _]; [reflexivity|].
  simpl. by rewrite (call_nil init_world c Hc eq_refl).
Qed.

(** C9: as long as no [Initialize] has run, the singleton is nil, and
    [Shutdown], [BeginFrame], [EndFrame], [OnResize] and [DrawFrame] each
    panic on the nil dereference instead of returning an error; the world
    is left untouched (no backend was reached). *)
Theorem C9_calls_before_Initialize_panic (cs : list (Call (Platform := Platform))) c :
  Forall (fun c => is_CInitialize c = false) cs ->
  is_CInitialize c = false ->
  let w := (run vulkan_New cs init_world).2 in
  renderer w = None /\ call vulkan_New c w = (Panicked, w).
Proof.
  intros Hcs Hc w. subst w. rewrite (run_without_Initialize cs Hcs).
  split; [reflexivity|]. by apply call_nil.
Qed.

(** *** Frames *)

(** C3: when the backend's [BeginFrame] returns an error, [DrawFrame]
    returns that error and the frame consists of the [BeginFrame] call and
    the log line only: [EndFrame] is never called.  When [BeginFrame]
    succeeds and [EndFrame] returns an error, [DrawFrame] returns that
    error and nothing follows the [EndFrame] call but the log line. *)
Theorem C3_DrawFrame_surfaces_backend_errors w r p msg :
  renderer w = Some r ->
  let dt := DeltaTime p in
  let begun := RendererBackend.BeginFrame dt (backend r) in
  let ended := RendererBackend.EndFrame dt begun.2 in
  let res := DrawFrame (Some p) w in
  (begun.1 = Some msg ->
     res.1 = Ret (Some msg)
     /\ trace res.2 = trace w ++ [EvBeginFrame dt; EvLogError msg]
     /\ (forall dt', EvEndFrame dt' ∉ added w res.2)
     /\ renderer res.2 = Some {| backend := begun.2 |})
  /\ (begun.1 = None -> ended.1 = Some msg ->
      res.1 = Ret (Some msg)
      /\ trace res.2 = trace w ++
           [EvBeginFrame dt; EvEndFrame dt;
            EvLogError
              "RendererEndFrame failed. Application shutting down..."]
      /\ renderer res.2 = Some {| backend := ended.2 |}).
Proof.
  intros Hr dt begun ended res. subst res.
  rewrite (DrawFrame_some w r p Hr). fold dt. fold begun. fold ended.
  split.
  - intros ->. simpl. repeat split.
    intros dt' Hin. rewrite (added_app w _ [EvBeginFrame dt; EvLogError msg])
      in Hin by reflexivity.
    absent.
  - intros -> ->. simpl. repeat split.
Qed.


(** C4 (amended): [BeginFrame] hands the call to the backend and returns
    what the backend returns; the renderer keeps no frame state.  So a
    second [BeginFrame] with no [EndFrame] in between fails exactly when
    the backend's [BeginFrame] fails on the state the first one left. *)
Theorem C4_nested_BeginFrame_is_the_backends_call w r dt1 dt2 :
  renderer w = Some r ->
  let first := RendererBackend.BeginFrame dt1 (backend r) in
  let second := RendererBackend.BeginFrame dt2 first.2 in
  let w1 := (BeginFrame dt1 w).2 in
  BeginFrame dt2 w1
  = (Ret second.1,
     {| initRenderer := initRenderer w;
        renderer := Some {| backend := second.2 |};
        trace := trace w ++ [EvBeginFrame dt1; EvBeginFrame dt2] |})
  /\ ((exists msg, (BeginFrame dt2 w1).1 = Ret (Some msg))
      <-> (exists msg, second.1 = Some msg)).
Proof.
  intros Hr first second w1. subst w1. unfold BeginFrame.
  rewrite (renderer_backend_some w r _ _ Hr). simpl.
  rewrite (renderer_backend_some (after_backend w _ _) _ _ _ eq_refl).
  simpl. fold first. fold second. split.
  - unfold after_backend. simpl. by rewrite <- app_assoc.
  - split; intros [msg Hmsg]; exists msg;
      [by injection Hmsg | by rewrite Hmsg].
Qed.

(** [OnResize] calls the backend's [Resized] once with the given size and
    returns its answer; that is the whole effect, no view callback is
    invoked. *)
Lemma OnResize_reaches_the_backend_only w r width height :
  renderer w = Some r ->
  let resized := RendererBackend.Resized width height (backend r) in
  let res := OnResize width height w in
  res = (Ret resized.1, after_backend w (EvResized width height) resized.2)
  /\ added w res.2 = [EvResized width height]
  /\ (forall view width' height',
        EvViewOnResize view width' height' ∉ added w res.2).
Proof.
  intros Hr resized res. subst res. unfold OnResize.
  rewrite (renderer_backend_some w r _ _ Hr). fold resized. simpl.
  rewrite (added_app w _ [EvResized width height]) by reflexivity.
  repeat split. intros view width' height' Hin. absent.
Qed.

(** C8 (amended): every [Shutdown], the first and each later one, calls
    the backend's [Shutdow] once and returns its answer; the singleton
    stays in place, so a second [Shutdown] shuts the backend down again.
    No view is destroyed by it. *)
Theorem C8_Shutdown_reaches_the_backend_every_time w r :
  renderer w = Some r ->
  let first := RendererBackend.Shutdow (backend r) in
  let second := RendererBackend.Shutdow first.2 in
  let w1 := (Shutdown w).2 in
  Shutdown w = (Ret first.1, after_backend w EvShutdow first.2)
  /\ Shutdown w1
     = (Ret second.1,
        {| initRenderer := initRenderer w;
           renderer := Some {| backend := second.2 |};
           trace := trace w ++ [EvShutdow; EvShutdow] |})
  /\ (forall view, EvViewOnDestroy view ∉ added w (Shutdown w1).2).
Proof.
  intros Hr first second w1. subst w1. unfold Shutdown.
  rewrite (renderer_backend_some w r _ _ Hr). fold first. simpl.
  rewrite (renderer_backend_some (after_backend w _ _) _ _ _ eq_refl).
  simpl. fold second.
  assert (Htrace : (trace w ++ [EvShutdow]) ++ [EvShutdow]
                   = trace w ++ [EvShutdow; EvShutdow])
    by (by rewrite <- app_assoc).
  repeat split.
  - unfold after_backend. simpl. by rewrite Htrace.
  - intros view Hin.
    rewrite (added_app w _ [EvShutdow; EvShutdow]) in Hin by exact Htrace.
    absent.
Qed.

(** *** Initialisation *)

Lemma constructions_app (t1 t2 : list (Event Platform)) :
  constructions (t1 ++ t2) = (constructions t1 + constructions t2)%nat.
Proof. unfold constructions. by rewrite filter_app, length_app. Qed.

Lemma Initialize_first w appName platform :
  initRenderer w = false ->
  let init := RendererBackend.Initialize appName (vulkan_New platform) in
  Initialize vulkan_New appName platform w
  = (Ret init.1,
     {| initRenderer := true;
        renderer := Some {| backend := init.2 |};
        trace := trace w ++ [EvNew platform; EvInitialize appName] |}).
Proof.
  intros Hfresh init. unfold Initialize, initRenderer_Do.
  unfold mbind at 1. unfold M_bind at 1. rewrite Hfresh. simpl.
  erewrite renderer_backend_some by reflexivity.
  simpl. fold init. unfold after_backend. simpl. by rewrite <- app_assoc.
Qed.

Lemma Initialize_again w appName platform :
  initRenderer w = true ->
  Initialize vulkan_New appName platform w
  = renderer_backend (EvInitialize appName)
      (RendererBackend.Initialize appName) w.
Proof.
  intros Hdone. unfold Initialize, initRenderer_Do.
  unfold mbind at 1. unfold M_bind at 1. by rewrite Hdone.
Qed.

(** C5 (amended): the first [Initialize] constructs the backend and calls
    its [Initialize] once; it returns the backend's answer, an error
    included, without a retry, and the singleton stays constructed either
    way.  Every later [Initialize] constructs nothing, but it does call the
    retained backend's [Initialize] again and returns that answer. *)
Theorem C5_Initialize_constructs_once_initializes_each_time
    w0 w r appName platform :
  initRenderer w0 = false ->
  initRenderer w = true -> renderer w = Some r ->
  let init0 := RendererBackend.Initialize appName (vulkan_New platform) in
  let init := RendererBackend.Initialize appName (backend r) in
  let res := Initialize vulkan_New appName platform w in
  (Initialize vulkan_New appName platform w0
   = (Ret init0.1,
      {| initRenderer := true;
         renderer := Some {| backend := init0.2 |};
         trace := trace w0 ++ [EvNew platform; EvInitialize appName] |}))
  /\ res = (Ret init.1, after_backend w (EvInitialize appName) init.2)
  /\ added w res.2 = [EvInitialize appName]
  /\ constructions (trace res.2) = constructions (trace w).
Proof.
  intros Hfresh Hdone Hr init0 init res. subst res.
  split; [by apply Initialize_first|].
  rewrite (Initialize_again w _ _ Hdone).
  rewrite (renderer_backend_some w r _ _ Hr). fold init. simpl.
  rewrite (added_app w _ [EvInitialize appName]) by reflexivity.
  repeat split. rewrite constructions_app.
  change (constructions [EvInitialize appName]) with 0%nat. lia.
Qed.

(** *** The platform of later [Initialize] calls *)

Lemma renderer_backend_keeps w e m :
  is_EvNew e = false ->
  let res := renderer_backend e m w in
  initRenderer res.2 = initRenderer w
  /\ exists l, trace res.2 = trace w ++ l /\ constructions l = 0%nat.
Proof.
  intros He res. subst res. destruct (renderer w) as [r|] eqn:Hr.
  - rewrite (renderer_backend_some w r _ _ Hr). simpl.
    split; [reflexivity|]. exists [e]. split; [reflexivity|].
    unfold constructions. simpl. rewrite filter_cons_False by congruence.
    reflexivity.
  - rewrite (renderer_backend_nil w _ _ Hr). simpl.
    split; [reflexivity|]. exists []. by rewrite app_nil_r.
Qed.

Lemma DrawFrame_keeps w renderPacket :
  let res := DrawFrame renderPacket w in
  initRenderer res.2 = initRenderer w
  /\ exists l, trace res.2 = trace w ++ l /\ constructions l = 0%nat.
Proof.
  intros res. subst res.
  assert (Hnone : initRenderer w = initRenderer w
                  /\ exists l, trace w = trace w ++ l
                               /\ constructions l = 0%nat).
  { split; [reflexivity|]. exists []. by rewrite app_nil_r. }
  destruct renderPacket as [p|]; [|exact Hnone].
  destruct (renderer w) as [r|] eqn:Hr.
  - rewrite (DrawFrame_some w r p Hr).
    repeat case_match; simpl; (split; [reflexivity|]);
      eexists; (split; [reflexivity|]); reflexivity.
  - unfold DrawFrame, BeginFrame, mbind, M_bind.
    by rewrite (renderer_backend_nil w _ _ Hr).
Qed.

Lemma call_keeps w c :
  initRenderer w = true ->
  let res := call vulkan_New c w in
  initRenderer res.2 = true
  /\ exists l, trace res.2 = trace w ++ l /\ constructions l = 0%nat.
Proof.
  intros Hdone res. subst res. rewrite <- Hdone at 1.
  destruct c; simpl;
    unfold Shutdown, BeginFrame, EndFrame, OnResize;
    try (by apply renderer_backend_keeps).
  - rewrite (Initialize_again w _ _ Hdone). by apply renderer_backend_keeps.
  - apply DrawFrame_keeps.
Qed.

Lemma call_platform_irrelevant w c1 c2 :
  initRenderer w = true -> same_but_platform c1 c2 ->
  call vulkan_New c1 w = call vulkan_New c2 w.
Proof.
  intros Hdone Hsame.
  destruct c1, c2; simpl in Hsame; try discriminate;
    try (by inversion Hsame).
  subst. simpl. by rewrite !Initialize_again.
Qed.

Lemma run_platform_irrelevant cs1 cs2 :
  Forall2 same_but_platform cs1 cs2 ->
  forall w, initRenderer w = true ->
  run vulkan_New cs1 w = run vulkan_New cs2 w.
Proof.
  induction 1 as [|c1 c2 cs1 cs2 Hc _ IH]; intros w Hdone; [reflexivity|].
  simpl. rewrite (call_platform_irrelevant w c1 c2 Hdone Hc).
  destruct (call_keeps w c2 Hdone) as [Hdone' _].
  destruct (call vulkan_New c2 w) as [[err|] w']; [|reflexivity].
  by rewrite (IH w' Hdone').
Qed.

Lemma run_keeps cs :
  forall w, initRenderer w = true ->
  exists l, trace (run vulkan_New cs w).2 = trace w ++ l
            /\ constructions l = 0%nat.
Proof.
  induction cs as [|c cs IH]; intros w Hdone; simpl.
  - exists []. by rewrite app_nil_r.
  - destruct (call_keeps w c Hdone) as (Hdone' & l & Hl & Hl0).
    destruct (call vulkan_New c w) as [[err|] w']; simpl in *.
    + destruct (IH w' Hdone') as (l' & Hl' & Hl'0).
      destruct (run vulkan_New cs w') as [rs w'']. simpl in *.
      exists (l ++ l'). rewrite Hl', Hl, <- app_assoc.
      split; [reflexivity|]. rewrite constructions_app. lia.
    + by exists l.
Qed.

(** C10: once the first [Initialize] has run, the platform handed to any
    later [Initialize] changes nothing: two programs that start with the
    same first [Initialize] and afterwards differ only in those platform
    arguments return the same results and leave the same world (same
    backend state, same trace); the one backend of the run is the one
    constructed from the first call's platform. *)
Theorem C10_later_platforms_are_ignored appName platform cs1 cs2 :
  Forall2 same_but_platform cs1 cs2 ->
  let res1 := run vulkan_New (CInitialize appName platform :: cs1) init_world in
  let res2 := run vulkan_New (CInitialize appName platform :: cs2) init_world in
  res1 = res2
  /\ constructions (trace res1.2) = 1%nat
  /\ head (trace res1.2) = Some (EvNew platform).
Proof.
  intros Hsame res1 res2. subst res1 res2. simpl.
  rewrite (Initialize_first init_world appName platform eq_refl). simpl.
  set (w1 := {| initRenderer := true; renderer := _; trace := _ |}).
  rewrite (run_platform_irrelevant cs1 cs2 Hsame w1 eq_refl).
  split; [reflexivity|].
  destruct (run_keeps cs2 w1 eq_refl) as (l & Hl & Hl0).
  destruct (run vulkan_New cs2 w1) as [rs w2]. simpl in *.
  rewrite Hl. split; [|reflexivity].
  change (constructions ([EvNew platform; EvInitialize appName] ++ l) = 1%nat).
  rewrite constructions_app, Hl0. reflexivity.
Qed.

(** *** Programs that grow at the end *)

Lemma run_snoc cs c :
  forall w outs w',
    run vulkan_New cs w = (outs, w') ->
    Forall (fun out => is_Ret out = true) outs ->
    run vulkan_New (cs ++ [c]) w
    = (outs ++ [(call vulkan_New c w').1], (call vulkan_New c w').2).
Proof.
  induction cs as [|c0 cs IH]; intros w outs w' Hrun Houts; simpl in *.
  - simplify_eq. by destruct (call vulkan_New c w') as [[err|] w1].
  - destruct (call vulkan_New c0 w) as [[err|] w1].
    + destruct (run vulkan_New cs w1) as [rs w2] eqn:Hrs. simplify_eq.
      apply Forall_cons in Houts as [_ Hrs'].
      by rewrite (IH w1 rs w' Hrs Hrs').
    + simplify_eq. apply Forall_cons in Houts as [Hp _]. discriminate Hp.
Qed.

(** From the process start, a first [Initialize] with [platform] goes
    through the world right after its [Do]. *)
Lemma run_calls_as_from_start platform (done : list (string * error)) :
  done <> [] ->
  run vulkan_New (calls_as platform done) init_world
  = run vulkan_New (calls_as platform done) (after_Do vulkan_New platform).
Proof.
  destruct done as [|[appName err] rest]; [done|]. intros _.
  unfold calls_as. rewrite fmap_cons. simpl.
  rewrite (Initialize_first init_world appName platform eq_refl).
  rewrite (Initialize_again (after_Do vulkan_New platform) _ _ eq_refl).
  by rewrite (renderer_backend_some (after_Do vulkan_New platform) _ _ _
                eq_refl).
Qed.

End Sequential.

(** ** Concurrent callers of [Initialize] *)

Section Concurrent.
Context {Platform B : Type} `{!RendererBackend.t B}.
Variable vulkan_New : Platform -> B.

Abbreviation CWorld := (@CWorld Platform B).
Abbreviation Goroutine := (@Goroutine Platform B).
Abbreviation spawn := (@spawn Platform B).
Abbreviation c_init := (@c_init Platform B).
Abbreviation c_step := (c_step vulkan_New).
Abbreviation c_run := (c_run vulkan_New).
Abbreviation c_inv := (c_inv vulkan_New).
Abbreviation after_Do := (after_Do vulkan_New).

Implicit Types (s : CWorld) (g : Goroutine).

Lemma g_args_at_pc g pc : g_args (at_pc g pc) = g_args g.
Proof. reflexivity. Qed.

Lemma move_keeps_args (gs : list Goroutine) i g pc :
  gs !! i = Some g -> g_args <$> <[i := at_pc g pc]> gs = g_args <$> gs.
Proof.
  intros Hi. rewrite list_fmap_insert, g_args_at_pc.
  apply list_insert_id. by rewrite list_lookup_fmap, Hi.
Qed.

Lemma g_args_spawn (args : list (string * Platform)) :
  g_args <$> (spawn <$> args) = args.
Proof.
  induction args as [|[appName platform] args IH]; [reflexivity|].
  rewrite !fmap_cons, IH. reflexivity.
Qed.

Lemma c_run_snoc schedule i s :
  c_run (schedule ++ [i]) s = c_step i (c_run schedule s).
Proof. unfold renderer.c_run. by rewrite foldl_app. Qed.

Lemma c_step_outside i s :
  c_goroutines s !! i = None -> c_step i s = s.
Proof. intros Hi. unfold renderer.c_step. by rewrite Hi. Qed.

(** What an update of one element does to the elements a partial function
    keeps. *)
Lemma omap_insert_same {A C : Type} (f : A -> option C) (l : list A) i x y :
  l !! i = Some x -> f y = f x -> omap f (<[i := y]> l) = omap f l.
Proof.
  revert i. induction l as [|a l IH]; intros [|i] Hi Hf; simplify_eq/=.
  - by rewrite Hf.
  - by rewrite (IH i Hi Hf).
Qed.

Lemma omap_insert_new {A C : Type} (f : A -> option C) (l : list A)
    i x y c :
  l !! i = Some x -> f x = None -> f y = Some c ->
  omap f (<[i := y]> l) ≡ₚ c :: omap f l.
Proof.
  revert i. induction l as [|a l IH]; intros [|i] Hi Hx Hy; simplify_eq/=.
  - by rewrite Hx, Hy.
  - destruct (f a); rewrite (IH i Hi Hx Hy); [apply Permutation_swap|done].
Qed.

Lemma omap_nothing {A C : Type} (f : A -> option C) (l : list A) :
  (forall j x, l !! j = Some x -> f x = None) -> omap f l = [].
Proof.
  induction l as [|a l IH]; intros Hnone; [done|]. simpl.
  rewrite (Hnone 0%nat a eq_refl). apply IH.
  intros j x Hj. apply (Hnone (S j) x Hj).
Qed.

Lemma lookup_move (gs : list Goroutine) i g pc j g' :
  gs !! i = Some g ->
  <[i := at_pc g pc]> gs !! j = Some g' ->
  (j = i /\ g' = at_pc g pc) \/ (j <> i /\ gs !! j = Some g').
Proof.
  intros Hi Hj. destruct (decide (j = i)) as [->|Hne].
  - left. rewrite list_lookup_insert_eq in Hj
      by (eapply lookup_lt_Some; eauto).
    by simplify_eq.
  - right. by rewrite list_lookup_insert_ne in Hj by congruence.
Qed.

Lemma constructions_Initialize (called : list string) :
  constructions (Platform := Platform) (EvInitialize <$> called) = 0%nat.
Proof. induction called as [|a called IH]; [done|]. exact IH. Qed.

Lemma constructions_cons_New platform (t : list (Event Platform)) :
  constructions (EvNew platform :: t) = S (constructions t).
Proof. apply (constructions_app [EvNew platform] t). Qed.

(** The first step of the first caller takes the once. *)
Lemma c_step_first args i :
  (i < length args)%nat ->
  let s := c_step i (c_init args) in
  c_inv args i s /\ c_once s = Running.
Proof.
  intros Hi s. subst s.
  destruct (lookup_lt_is_Some_2 args i Hi) as [arg Harg].
  assert (Hg : c_goroutines (c_init args) !! i = Some (spawn arg))
    by (simpl; by rewrite list_lookup_fmap, Harg).
  unfold renderer.c_step. rewrite Hg. simpl.
  split; [|reflexivity]. split; simpl.
  - rewrite (move_keeps_args _ i (spawn arg) PcInDo)
      by (by rewrite list_lookup_fmap, Harg).
    apply g_args_spawn.
  - exists (at_pc (spawn arg) PcInDo). split.
    + apply list_lookup_insert_eq. by rewrite length_fmap.
    + simpl. split; [|by split]. intros j g Hj Hlook.
      rewrite list_lookup_insert_ne in Hlook by congruence.
      rewrite list_lookup_fmap in Hlook.
      destruct (args !! j); simplify_eq/=. reflexivity.
Qed.

(** A step of the goroutine inside [Do] while the once is running. *)
Lemma c_step_inv_builder args k s :
  c_once s = Running -> c_inv args k s -> c_inv args k (c_step k s).
Proof.
  intros Honce (Hargs & gk & Hk & Hinv). rewrite Honce in Hinv.
  destruct Hinv as [Hothers Hpc].
  assert (Hlt : (k < length (c_goroutines s))%nat)
    by (eapply lookup_lt_Some; eauto).
  assert (Hrest : forall pc j g, j <> k ->
            <[k := at_pc gk pc]> (c_goroutines s) !! j = Some g ->
            g_pc g = PcCall).
  { intros pc j g Hj Hlook.
    rewrite list_lookup_insert_ne in Hlook by congruence. eauto. }
  unfold renderer.c_step. rewrite Hk.
  destruct (g_pc gk) as [| |b| | | |err|res] eqn:Hpcg; try done.
  - destruct Hpc as [Hnil Htrace].
    split; simpl; [by rewrite move_keeps_args|].
    eexists. split; [by apply list_lookup_insert_eq|].
    rewrite Honce. simpl. split; [by apply Hrest|].
    rewrite Htrace. done.
  - destruct Hpc as (-> & Hnil & Htrace).
    split; simpl; [by rewrite move_keeps_args|].
    eexists. split; [by apply list_lookup_insert_eq|].
    rewrite Honce. simpl. split; [by apply Hrest|]. done.
  - destruct Hpc as [Hr Htrace].
    assert (Hquiet : forall j g,
              <[k := at_pc gk PcAfterDo]> (c_goroutines s) !! j = Some g ->
              g_pc g = PcAfterDo \/ g_pc g = PcCall).
    { intros j g Hlook.
      destruct (lookup_move _ _ _ _ _ _ Hk Hlook) as [[-> ->]|[Hj Hold]];
        [by left | right; eauto]. }
    split; simpl; [by rewrite move_keeps_args|].
    eexists. split; [by apply list_lookup_insert_eq|].
    simpl. exists [], [], {| backend := vulkan_New (g_platform gk) |},
             (after_Do (g_platform gk)).
    rewrite Htrace, Hr. split; [done|].
    split.
    { unfold c_called. simpl. rewrite omap_nothing; [done|].
      intros j g Hlook. unfold called_name.
      by destruct (Hquiet j g Hlook) as [-> | ->]. }
    split.
    { unfold c_answered. simpl. rewrite omap_nothing; [done|].
      intros j g Hlook. unfold answered.
      by destruct (Hquiet j g Hlook) as [-> | ->]. }
    do 4 (split; [done|]).
    intros j g Hlook. by destruct (Hquiet j g Hlook) as [-> | ->].
Qed.

(** While the once is running, every other goroutine waits. *)
Lemma c_step_blocked args k i s :
  c_once s = Running -> i <> k -> c_inv args k s -> c_step i s = s.
Proof.
  intros Honce Hne (_ & gk & _ & Hinv). rewrite Honce in Hinv.
  destruct Hinv as [Hothers _]. unfold renderer.c_step.
  destruct (c_goroutines s !! i) as [g|] eqn:Hi; [|reflexivity].
  by rewrite (Hothers i g Hne Hi), Honce.
Qed.

(** A step once the once is done. *)
Lemma c_step_inv_done args k i s :
  c_once s = Done -> c_inv args k s -> c_inv args k (c_step i s).
Proof.
  intros Honce Hinv.
  destruct (c_goroutines s !! i) as [g|] eqn:Hi;
    [|by rewrite (c_step_outside i s Hi)].
  destruct Hinv as (Hargs & gk & Hk & Hinv). rewrite Honce in Hinv.
  destruct Hinv
    as (called & done & r & w' & Htrace & Hcalled & Hdone & Hrun & Hinit
        & Hw' & Hr & Hall).
  assert (Hlt : (i < length (c_goroutines s))%nat)
    by (eapply lookup_lt_Some; eauto).
  assert (Hk' : forall pc, exists gk',
            <[i := at_pc g pc]> (c_goroutines s) !! k = Some gk'
            /\ g_platform gk' = g_platform gk).
  { intros pc. destruct (decide (i = k)) as [->|Hne].
    - exists (at_pc g pc). split; [by apply list_lookup_insert_eq|].
      by simplify_eq.
    - exists gk. by rewrite list_lookup_insert_ne. }
  assert (Hall' : forall pc, building pc = false ->
            pc <> PcReturned Panicked ->
            forall j g', <[i := at_pc g pc]> (c_goroutines s) !! j = Some g' ->
            building (g_pc g') = false /\ g_pc g' <> PcReturned Panicked).
  { intros pc Hb Hp j g' Hlook.
    destruct (lookup_move _ _ _ _ _ _ Hi Hlook) as [[-> ->]|[Hj Hold]];
      [done | eauto]. }
  destruct (Hall i g Hi) as [Hbuild Hpanic].
  unfold renderer.c_step. rewrite Hi.
  destruct (g_pc g) as [| |b| | | |err|res] eqn:Hpcg; try discriminate.
  - (* passes the once *)
    rewrite Honce. destruct (Hk' PcAfterDo) as (gk' & Hgk' & Hpf).
    split; simpl; [by rewrite move_keeps_args|].
    exists gk'. split; [done|]. rewrite Hpf. exists called, done, r, w'.
    split; [done|]. split.
    { unfold c_called. simpl.
      rewrite (omap_insert_same called_name _ i g); [done..|].
      unfold called_name. by rewrite Hpcg. }
    split.
    { unfold c_answered. simpl.
      rewrite (omap_insert_same answered _ i g); [done..|].
      unfold answered. by rewrite Hpcg. }
    do 4 (split; [done|]). by apply Hall'.
  - (* makes the call *)
    rewrite Hr.
    destruct (Hk' PcInBackend) as (gk' & Hgk' & Hpf).
    split; simpl; [by rewrite move_keeps_args|].
    exists gk'. split; [done|]. rewrite Honce, Hpf.
    exists (called ++ [g_appName g]), done, r, w'.
    split; [by rewrite Htrace, fmap_app|]. split.
    { unfold c_called. simpl.
      rewrite (omap_insert_new called_name _ i g _ (g_appName g));
        [|done|unfold called_name; by rewrite Hpcg|done].
      rewrite <- Hcalled. by rewrite Permutation_app_comm. }
    split.
    { unfold c_answered. simpl.
      rewrite (omap_insert_same answered _ i g); [done..|].
      unfold answered. by rewrite Hpcg. }
    do 4 (split; [done|]). by apply Hall'.
  - (* the backend acts *)
    rewrite Hr.
    destruct (RendererBackend.Initialize (g_appName g) (backend r))
      as [err b'] eqn:Hcall.
    destruct (Hk' (PcAnswered err)) as (gk' & Hgk' & Hpf).
    split; simpl; [by rewrite move_keeps_args|].
    exists gk'. split; [done|]. rewrite Honce, Hpf.
    exists called, (done ++ [(g_appName g, err)]), {| backend := b' |},
           (after_backend w' (EvInitialize (g_appName g)) b').
    split; [done|]. split.
    { unfold c_called. simpl.
      rewrite (omap_insert_same called_name _ i g); [done..|].
      unfold called_name. by rewrite Hpcg. }
    split.
    { unfold c_answered. simpl.
      rewrite (omap_insert_new answered _ i g _ (g_appName g, err));
        [|done|unfold answered; by rewrite Hpcg|done].
      rewrite <- Hdone. by rewrite Permutation_app_comm. }
    split.
    { unfold calls_as. rewrite fmap_app. simpl.
      rewrite (run_snoc vulkan_New _ _ _ _ _ Hrun).
      - simpl. rewrite (Initialize_again vulkan_New w' _ _ Hinit).
        rewrite (renderer_backend_some w' r _ _ Hw'). rewrite Hcall.
        by rewrite fmap_app.
      - clear. induction done as [|x done IH]; by constructor. }
    do 3 (split; [done|]). by apply Hall'.
  - (* the call returns *)
    destruct (Hk' (PcReturned (Ret err))) as (gk' & Hgk' & Hpf).
    split; simpl; [by rewrite move_keeps_args|].
    exists gk'. split; [done|]. rewrite Honce, Hpf.
    exists called, done, r, w'.
    split; [done|]. split.
    { unfold c_called. simpl.
      rewrite (omap_insert_same called_name _ i g); [done..|].
      unfold called_name. by rewrite Hpcg. }
    split.
    { unfold c_answered. simpl.
      rewrite (omap_insert_same answered _ i g); [done..|].
      unfold answered. by rewrite Hpcg. }
    do 4 (split; [done|]). by apply Hall'.
  - split; [done|]. exists gk. split; [done|]. rewrite Honce.
    exists called, done, r, w'. done.
Qed.

Lemma c_step_inv args k i s :
  c_inv args k s -> c_inv args k (c_step i s).
Proof.
  intros Hinv. destruct (c_once s) eqn:Honce.
  - destruct Hinv as (_ & gk & _ & Hinv). by rewrite Honce in Hinv.
  - destruct (decide (i = k)) as [->|Hne].
    + by apply c_step_inv_builder.
    + by rewrite (c_step_blocked args k i s).
  - by apply c_step_inv_done.
Qed.

Lemma c_run_inv args k schedule :
  forall s, c_inv args k s -> c_inv args k (c_run schedule s).
Proof.
  induction schedule as [|i schedule IH]; intros s Hinv; [done|].
  simpl. apply IH. by apply c_step_inv.
Qed.

Lemma length_c_init args : length (c_goroutines (c_init args)) = length args.
Proof. simpl. by rewrite length_fmap. Qed.

(** Every run is still at its start or has a first caller [k] that the
    invariant speaks of. *)
Lemma c_run_from_init args schedule :
  match first_caller (length args) schedule with
  | None => c_run schedule (c_init args) = c_init args
  | Some k => c_inv args k (c_run schedule (c_init args))
  end.
Proof.
  induction schedule as [|i schedule IH]; [reflexivity|].
  simpl. case_decide as Hi.
  - apply c_run_inv. by apply c_step_first.
  - rewrite c_step_outside; [exact IH|].
    apply lookup_ge_None. rewrite length_c_init. lia.
Qed.

(** *** Progress *)

Lemma move_changes (gs : list Goroutine) i g pc :
  gs !! i = Some g -> g_pc g <> pc -> <[i := at_pc g pc]> gs <> gs.
Proof.
  intros Hi Hpc Heq. apply (f_equal (fun l => g_pc <$> l !! i)) in Heq.
  rewrite list_lookup_insert_eq in Heq by (eapply lookup_lt_Some; eauto).
  rewrite Hi in Heq. simpl in Heq. congruence.
Qed.

(** In a world that the invariant speaks of, either somebody can take a
    step that changes the world or everybody has returned. *)
Lemma c_inv_progress args k s :
  c_inv args k s ->
  (exists j, c_step j s <> s)
  \/ (Forall (fun g => has_returned (g_pc g) = true) (c_goroutines s)
      /\ c_once s = Done).
Proof.
  intros (Hargs & gk & Hk & Hinv).
  destruct (c_once s) eqn:Honce; [done| |].
  - left. exists k. destruct Hinv as [_ Hpc]. unfold renderer.c_step.
    rewrite Hk. destruct (g_pc gk); try done.
    + destruct Hpc as [_ Htrace]. intros Heq.
      apply (f_equal c_trace) in Heq. simpl in Heq.
      rewrite Htrace in Heq. discriminate.
    + destruct Hpc as (_ & Hr & _). intros Heq.
      apply (f_equal c_renderer) in Heq. simpl in Heq. congruence.
    + intros Heq. apply (f_equal c_once) in Heq. simpl in Heq.
      congruence.
  - destruct Hinv as (called & done & r & w' & _ & _ & _ & _ & _ & _ & Hr
                      & Hall).
    destruct (decide (Forall (fun g : Goroutine =>
                                has_returned (g_pc g) = true)
                        (c_goroutines s))) as [Hret|Hnot];
      [by right|].
    left. apply not_Forall_Exists in Hnot; [|apply _].
    apply Exists_exists in Hnot as (g & Hin & Hg).
    apply list_elem_of_lookup in Hin as [i Hi]. exists i.
    destruct (Hall i g Hi) as [Hbuild _].
    unfold renderer.c_step. rewrite Hi.
    destruct (g_pc g) as [| |b| | | |err|res] eqn:Hpc; try discriminate.
    + rewrite Honce. intros Heq. apply (f_equal c_goroutines) in Heq.
      simpl in Heq. revert Heq. apply move_changes; [done|by rewrite Hpc].
    + rewrite Hr. intros Heq. apply (f_equal (length ∘ c_trace)) in Heq.
      simpl in Heq. rewrite length_app in Heq. simpl in Heq. lia.
    + rewrite Hr.
      destruct (RendererBackend.Initialize _ _) as [err b']. intros Heq.
      apply (f_equal c_goroutines) in Heq.
      simpl in Heq. revert Heq. apply move_changes; [done|by rewrite Hpc].
    + intros Heq. apply (f_equal c_goroutines) in Heq.
      simpl in Heq. revert Heq. apply move_changes; [done|by rewrite Hpc].
    + exfalso. apply Hg. by rewrite Hpc.
Qed.

Lemma c_run_progress_or_done args schedule :
  let s := c_run schedule (c_init args) in
  (exists j, c_step j s <> s)
  \/ (Forall (fun g => has_returned (g_pc g) = true) (c_goroutines s)
      /\ (args <> [] -> c_once s = Done)).
Proof.
  intros s. subst s.
  pose proof (c_run_from_init args schedule) as Hrun.
  destruct (first_caller (length args) schedule) as [k|].
  - destruct (c_inv_progress args k _ Hrun) as [Hstep|[Hret Hdone]];
      [by left | right; by split].
  - rewrite Hrun. destruct args as [|arg args]; [right; by split|].
    left. exists 0%nat. unfold renderer.c_step. simpl. discriminate.
Qed.

(** X6: no deadlock.  Under every schedule, while some goroutine has not
    returned from [Initialize], some goroutine can take a step that changes
    the world: the callers that wait for the once do not wait for ever. *)
Lemma c_run_progress args schedule i g :
  let s := c_run schedule (c_init args) in
  c_goroutines s !! i = Some g ->
  (forall res, g_pc g <> PcReturned res) ->
  exists j, c_step j s <> s.
Proof.
  intros s Hi Hrunning.
  destruct (c_run_progress_or_done args schedule) as [Hstep|[Hret _]];
    [exact Hstep|].
  fold s in Hret. rewrite Forall_lookup in Hret.
  specialize (Hret i g Hi). destruct (g_pc g); try discriminate.
  by destruct (Hrunning r).
Qed.

(** C2: whatever the number of goroutines that call [Initialize] and
    whatever the interleaving of their steps, backend calls overlapping
    included:
    - at most one backend is ever constructed, and nobody panics on a nil
      or half-assigned singleton: a goroutine is past [Do] only when the
      once is done;
    - once the once is done, exactly one backend has been constructed, by
      the first caller and from its platform; the trace is that
      construction followed by the [Initialize] calls made so far, one for
      each goroutine that made its call; and the singleton holds the one
      backend in the state in which the package's [Initialize], called in
      a row in the order in which the backend acted, leaves it, each
      goroutine having got the answer of its own call;
    - the callers get there: as long as somebody has not returned, somebody
      can move, and when nobody can move any more every caller has returned
      and (if there was a caller at all) the once is done. *)
Theorem C2_concurrent_callers_share_one_backend
    (args : list (string * Platform)) schedule :
  let s := c_run schedule (c_init args) in
  (constructions (c_trace s) <= 1)%nat
  /\ (forall i g, c_goroutines s !! i = Some g ->
        g_pc g <> PcReturned Panicked
        /\ (past_Do (g_pc g) = true -> c_once s = Done))
  /\ (c_once s = Done ->
      exists k appName platform called done w',
        first_caller (length args) schedule = Some k
        /\ args !! k = Some (appName, platform)
        /\ constructions (c_trace s) = 1%nat
        /\ c_trace s = EvNew platform :: (EvInitialize <$> called)
        /\ called ≡ₚ c_called s
        /\ done ≡ₚ c_answered s
        /\ run vulkan_New (calls_as platform done) (after_Do platform)
           = ((fun x => Ret x.2) <$> done, w')
        /\ (done <> [] ->
            run vulkan_New (calls_as platform done) init_world
            = ((fun x => Ret x.2) <$> done, w'))
        /\ c_renderer s = renderer w'
        /\ renderer w' <> None)
  /\ ((exists j, c_step j s <> s)
      \/ (Forall (fun g => has_returned (g_pc g) = true) (c_goroutines s)
          /\ (args <> [] -> c_once s = Done))).
Proof.
  intros s. split; [|split; [|split]];
    [| | |exact (c_run_progress_or_done args schedule)]; subst s;
    pose proof (c_run_from_init args schedule) as Hrun;
    destruct (first_caller (length args) schedule) as [k|];
    try (destruct Hrun as (Hargs & gk & Hk & Hinv));
    try rewrite Hrun;
    try set (s := c_run schedule (c_init args)) in *.
  - (* at most one construction *)
    destruct (c_once s) eqn:Honce; [done| |].
    + destruct Hinv as [_ Hpc]. destruct (g_pc gk); try done.
      * destruct Hpc as [_ ->]. cbn. lia.
      * destruct Hpc as (_ & _ & ->). rewrite constructions_cons_New.
        cbn. lia.
      * destruct Hpc as [_ ->]. rewrite constructions_cons_New. cbn. lia.
    + destruct Hinv as (called & done & r & w' & -> & _).
      rewrite constructions_cons_New, constructions_Initialize. lia.
  - cbn. lia.
  - (* nobody panics, nobody is past Do early *)
    intros i g Hi. destruct (c_once s) eqn:Honce; [done| |].
    + destruct Hinv as [Hothers Hpc].
      destruct (decide (i = k)) as [->|Hne].
      * simplify_eq. by destruct (g_pc gk).
      * by rewrite (Hothers i g Hne Hi).
    + destruct Hinv as (called & done & r & w' & _ & _ & _ & _ & _ & _ & _
                        & Hall).
      by destruct (Hall i g Hi).
  - intros i g Hi. simpl in Hi. rewrite list_lookup_fmap in Hi.
    destruct (args !! i); by simplify_eq/=.
  - (* the once is done *)
    intros Honce. rewrite Honce in Hinv.
    destruct Hinv as (called & done & r & w' & Htrace & Hcalled & Hdone
                      & Hrun & _ & Hw' & Hr & _).
    exists k, (g_appName gk), (g_platform gk), called, done, w'.
    split; [done|]. split.
    { rewrite <- Hargs, list_lookup_fmap, Hk. done. }
    split.
    { rewrite Htrace, constructions_cons_New, constructions_Initialize.
      done. }
    do 4 (split; [done|]). split.
    { intros Hne. by rewrite (run_calls_as_from_start vulkan_New _ _ Hne). }
    split; [congruence|]. by rewrite Hw'.
  - discriminate.
Qed.

End Concurrent.

(** ** Concrete runs *)



(** C3, witness: a backend that refuses the frame, and one that accepts it
    and then fails to end it. *)
Lemma C3_witness :
  let p := {| DeltaTime := 0.5%float |} in
  let lost := DrawFrame (Some p) (Fixtures.ready [Some "device lost"]) in
  let late :=
    DrawFrame (Some p) (Fixtures.ready [None; Some "present failed"]) in
  (lost.1 = Ret (Some "device lost")
   /\ added (Fixtures.ready [Some "device lost"]) lost.2
      = [EvBeginFrame 0.5%float; EvLogError "device lost"])
  /\ (late.1 = Ret (Some "present failed")
      /\ added (Fixtures.ready [None; Some "present failed"]) late.2
         = [EvBeginFrame 0.5%float; EvEndFrame 0.5%float;
            EvLogError
              "RendererEndFrame failed. Application shutting down..."]).
Proof.
  split.
  - pose proof (C3_DrawFrame_surfaces_backend_errors
                  (Fixtures.ready [Some "device lost"])
                  {| backend := Scripted.New [Some "device lost"] |}
                  {| DeltaTime := 0.5%float |} "device lost" eq_refl)
      as [Hlost _].
    destruct (Hlost eq_refl) as (Hres & Htrace & _).
    split; [exact Hres|]. by apply added_app.
  - pose proof (C3_DrawFrame_surfaces_backend_errors
                  (Fixtures.ready [None; Some "present failed"])
                  {| backend := Scripted.New [None; Some "present failed"] |}
                  {| DeltaTime := 0.5%float |} "present failed" eq_refl)
      as [_ Hlate].
    destruct (Hlate eq_refl eq_refl) as (Hres & Htrace & _).
    split; [exact Hres|]. by apply added_app.
Defined.

(** C4, witness: on the strict backend the second [BeginFrame] fails,
    because that backend says so. *)
Lemma C4_witness :
  let w := Fixtures.ready_strict in
  let w1 := (BeginFrame 0.5%float w).2 in
  renderer w = Some {| backend := Strict.New tt |}
  /\ (BeginFrame 0.5%float w).1 = Ret None
  /\ (BeginFrame 0.25%float w1).1 = Ret (Some "frame already begun").
Proof.
  split; [reflexivity|]. split; [reflexivity|].
  pose proof (C4_nested_BeginFrame_is_the_backends_call
                Fixtures.ready_strict {| backend := Strict.New tt |}
                0.5%float 0.25%float eq_refl) as [Heq _].
  by rewrite Heq.
Defined.

(** C4, counterexample: on a backend that accepts every call the second
    [BeginFrame] succeeds like the first; the renderer does not reject it. *)
Lemma C4_counterexample :
  ~ (forall (w w1 : World (list error) Scripted.t) (dt1 dt2 : float64),
       BeginFrame dt1 w = (Ret None, w1) ->
       exists msg, (BeginFrame dt2 w1).1 = Ret (Some msg)).
Proof.
  intros Hclaim.
  destruct (Hclaim (Fixtures.ready []) _ 0.5%float 0.5%float eq_refl)
    as [msg Hmsg].
  vm_compute in Hmsg. discriminate Hmsg.
Qed.

(** C5, witness: a first [Initialize] that the backend refuses, and a second
    one on the retained backend. *)
Lemma C5_witness :
  let w0 : World (list error) Scripted.t := init_world in
  let first := Initialize Scripted.New "app" [Some "no device"] w0 in
  let second := Initialize Scripted.New "app" [Some "other platform"] first.2 in
  first.1 = Ret (Some "no device")
  /\ trace first.2 = [EvNew [Some "no device"]; EvInitialize "app"]
  /\ renderer first.2 = Some {| backend := Scripted.New [] |}
  /\ second.1 = Ret None
  /\ added first.2 second.2 = [EvInitialize "app"].
Proof.
  pose proof (C5_Initialize_constructs_once_initializes_each_time
                Scripted.New init_world
                (Initialize Scripted.New "app" [Some "no device"]
                   init_world).2
                {| backend := Scripted.New [] |}
                "app" [Some "other platform"] eq_refl eq_refl eq_refl)
    as (_ & Hsecond & Hadded & _).
  do 3 (split; [reflexivity|]).
  split; [by rewrite Hsecond | exact Hadded].
Defined.

(** C5, counterexample: after a first [Initialize] that succeeded, a second
    one is neither a no-op nor an error: on a backend that accepts every
    call it returns nil and has initialised the backend a second time.  And
    after a first [Initialize] that the backend refused, the renderer is not
    uninitialised: the singleton is in place and a frame can begin. *)
Lemma C5_counterexample :
  ~ (forall (w w1 : World (list error) Scripted.t) appName platform,
       Initialize Scripted.New appName platform w = (Ret None, w1) ->
       forall appName' platform',
         let res := Initialize Scripted.New appName' platform' w1 in
         res.2 = w1 \/ exists msg, res.1 = Ret (Some msg))
  /\ ~ (forall (w w1 : World (list error) Scripted.t) appName platform,
          Initialize Scripted.New appName platform w = (Ret None, w1) ->
          forall appName' platform',
            let res := Initialize Scripted.New appName' platform' w1 in
            (Spec.initializations (trace res.2)
             <= Spec.initializations (trace w1))%nat)
  /\ (run Scripted.New
         [CInitialize "app" [Some "no device"]; CBeginFrame 0.5%float]
         init_world).1
     = [Ret (Some "no device"); Ret None].
Proof.
  split; [|split; [|reflexivity]].
  - intros Hclaim.
    destruct (Hclaim init_world _ "app" [] eq_refl "app" [])
      as [Hnoop|[msg Hmsg]].
    + apply (f_equal (length ∘ trace)) in Hnoop. vm_compute in Hnoop.
      discriminate Hnoop.
    + vm_compute in Hmsg. discriminate Hmsg.
  - intros Hclaim.
    pose proof (Hclaim init_world _ "app" [] eq_refl "app" []) as Hcount.
    vm_compute in Hcount. lia.
Qed.

(** C8, witness: two shutdowns in a row both reach the backend. *)
Lemma C8_witness :
  let w := Fixtures.ready [] in
  let first := Shutdown w in
  let second := Shutdown first.2 in
  renderer w = Some {| backend := Scripted.New [] |}
  /\ first.1 = Ret None
  /\ second.1 = Ret None
  /\ trace second.2 = trace w ++ [EvShutdow; EvShutdow].
Proof.
  split; [reflexivity|].
  pose proof (C8_Shutdown_reaches_the_backend_every_time
                (Fixtures.ready []) {| backend := Scripted.New [] |} eq_refl)
    as (Hfirst & Hsecond & _).
  split; [by rewrite Hfirst|]. by rewrite Hsecond.
Defined.

(** C8, counterexample: a second [Shutdown] after a successful one is not a
    no-op, it shuts the backend down again; and a [Shutdown] with views
    around destroys none of them. *)
Lemma C8_counterexample :
  ~ (forall (w w1 : World (list error) Scripted.t),
       Shutdown w = (Ret None, w1) -> (Shutdown w1).2 = w1)
  /\ (let w := Fixtures.ready [] in
      let views := [Fixtures.world_view; Fixtures.skybox_view] in
      Spec.shutdown (Platform := list error) views
      = [EvViewOnDestroy 2; EvViewOnDestroy 1; EvShutdow]
      /\ added w (Shutdown w).2 = [EvShutdow]
      /\ added w (Shutdown w).2 <> Spec.shutdown views).
Proof.
  split.
  - intros Hclaim.
    pose proof (Hclaim (Fixtures.ready []) _ eq_refl) as Heq.
    apply (f_equal (length ∘ trace)) in Heq. vm_compute in Heq.
    discriminate Heq.
  - repeat split. intros Heq. vm_compute in Heq. discriminate Heq.
Qed.

(** C9, witness: a frame drawn in a process that never initialised the
    renderer. *)
Lemma C9_witness :
  let w : World (list error) Scripted.t := init_world in
  let p := {| DeltaTime := 0.5%float |} in
  renderer w = None
  /\ call Scripted.New (CDrawFrame (Some p)) w = (Panicked, w)
  /\ call Scripted.New CShutdown w = (Panicked, w).
Proof.
  split; [reflexivity|]. split.
  - destruct (C9_calls_before_Initialize_panic Scripted.New
                [] (CDrawFrame (Some {| DeltaTime := 0.5%float |})))
      as [_ Hpanic]; [constructor | reflexivity | exact Hpanic].
  - destruct (C9_calls_before_Initialize_panic Scripted.New
                [CBeginFrame 0.5%float] CShutdown)
      as [_ Hpanic]; [repeat constructor | reflexivity | exact Hpanic].
Defined.

(** C10, witness: two programs whose second [Initialize] names different
    platforms; the frames that follow fail the same way, as the first
    platform's script says. *)
Lemma C10_witness :
  let frame := CDrawFrame (Some {| DeltaTime := 0.5%float |}) in
  let first := CInitialize "app" [None; None; Some "lost"] in
  let res1 :=
    run Scripted.New [first; CInitialize "app" []; frame] init_world in
  let res2 :=
    run Scripted.New [first; CInitialize "app" [Some "x"]; frame] init_world in
  res1 = res2
  /\ res1.1 = [Ret None; Ret None; Ret (Some "lost")]
  /\ constructions (trace res1.2) = 1%nat.
Proof.
  pose proof (C10_later_platforms_are_ignored Scripted.New
                "app" [None; None; Some "lost"]
                [CInitialize "app" [];
                 CDrawFrame (Some {| DeltaTime := 0.5%float |})]
                [CInitialize "app" [Some "x"];
                 CDrawFrame (Some {| DeltaTime := 0.5%float |})])
    as Hthm.
  destruct Hthm as (Heq & Hone & _).
  - repeat constructor.
  - split; [exact Heq|]. split; [reflexivity | exact Hone].
Defined.

(** C2, witness: three goroutines.  Goroutine 1 enters [Do] first and
    goroutine 0 has to wait; then all three are inside the backend's
    [Initialize] at once, and the backend acts on the calls in another order
    than they were made.  One backend, built for goroutine 1's platform,
    answers as its script says, in the order in which it acted. *)
Lemma C2_witness :
  let args := [("a", [Some "zero"]);
               ("b", [Some "first"; None; Some "third"]);
               ("c", [])] in
  let inside := [1; 0; 1; 0; 1; 1; 1; 2; 2; 0; 0]%nat in
  let schedule := inside ++ [2; 0; 1; 0; 1; 2]%nat in
  let s1 := c_run Scripted.New inside (c_init args) in
  let s := c_run Scripted.New schedule (c_init args) in
  g_pc <$> c_goroutines s1 = [PcInBackend; PcInBackend; PcInBackend]
  /\ c_trace s
     = [EvNew [Some "first"; None; Some "third"];
        EvInitialize "b"; EvInitialize "c"; EvInitialize "a"]
  /\ g_pc <$> c_goroutines s
     = [PcReturned (Ret None); PcReturned (Ret (Some "third"));
        PcReturned (Ret (Some "first"))]
  /\ c_once s = Done
  /\ constructions (c_trace s) = 1%nat
  /\ c_renderer s = Some {| backend := Scripted.New [] |}.
Proof.
  do 4 (split; [reflexivity|]).
  pose proof (C2_concurrent_callers_share_one_backend Scripted.New
                [("a", [Some "zero"]);
                 ("b", [Some "first"; None; Some "third"]);
                 ("c", [])]
                ([1; 0; 1; 0; 1; 1; 1; 2; 2; 0; 0]%nat
                   ++ [2; 0; 1; 0; 1; 2]%nat))
    as (_ & _ & Hdone & _).
  destruct (Hdone eq_refl)
    as (k & appName & platform & called & done & w' & _ & _ & Hone & _).
  split; [exact Hone | reflexivity].
Defined.

(** * Further properties of the package *)

(** ** Programs on a constructed renderer *)

Section Programs.
Context {Platform B : Type} `{!RendererBackend.t B}.
Variable vulkan_New : Platform -> B.

Implicit Types (w : World Platform B) (r : Renderer B).

Lemma added_same w : added w w = [].
Proof. unfold added. apply drop_all. Qed.

Lemma log_lines_app (t1 t2 : list (Event Platform)) :
  log_lines (t1 ++ t2) = (log_lines t1 + log_lines t2)%nat.
Proof. unfold log_lines. by rewrite filter_app, length_app. Qed.

Lemma backend_initializations_app (t1 t2 : list (Event Platform)) :
  backend_initializations (t1 ++ t2)
  = (backend_initializations t1 + backend_initializations t2)%nat.
Proof. unfold backend_initializations. by rewrite filter_app, length_app. Qed.

(** X2: [DrawFrame] hands exactly one line to [core.LogError] when it
    returns an error, and none when it returns nil or panics. *)
Theorem X2_DrawFrame_logs_once_iff_error w renderPacket :
  let res := DrawFrame renderPacket w in
  log_lines (added w res.2)
  = match res.1 with Ret (Some _) => 1%nat | _ => 0%nat end.
Proof.
  intros res. subst res. destruct renderPacket as [p|].
  - destruct (renderer w) as [r|] eqn:Hr.
    + rewrite (DrawFrame_some w r p Hr).
      destruct (RendererBackend.BeginFrame (DeltaTime p) (backend r))
        as [[msg|] b1]; simpl.
      * by erewrite added_app by reflexivity.
      * destruct (RendererBackend.EndFrame (DeltaTime p) b1)
          as [[msg|] b2]; simpl; by erewrite added_app by reflexivity.
    + unfold DrawFrame, BeginFrame, mbind, M_bind.
      rewrite (renderer_backend_nil w _ _ Hr). simpl. by rewrite added_same.
  - simpl. by rewrite added_same.
Qed.

(** X3: a [DrawFrame] that returns nil is the same as a [BeginFrame]
    followed by an [EndFrame] that both return nil, each with the packet's
    delta time: same final world, backend state and trace included. *)
Theorem X3_DrawFrame_nil_iff_BeginFrame_EndFrame_nil w p w' :
  DrawFrame (Some p) w = (Ret None, w')
  <-> run vulkan_New [CBeginFrame (DeltaTime p); CEndFrame (DeltaTime p)] w
      = ([Ret None; Ret None], w').
Proof.
  destruct (renderer w) as [r|] eqn:Hr.
  - rewrite (DrawFrame_some w r p Hr).
    simpl. unfold BeginFrame, EndFrame.
    rewrite (renderer_backend_some w r _ _ Hr).
    rewrite (renderer_backend_some (after_backend w _ _) _ _ _ eq_refl).
    simpl.
    destruct (RendererBackend.BeginFrame (DeltaTime p) (backend r))
      as [[msg|] b1]; simpl.
    + split; intros Heq; discriminate Heq.
    + destruct (RendererBackend.EndFrame (DeltaTime p) b1)
        as [[msg|] b2]; simpl.
      * split; intros Heq; discriminate Heq.
      * unfold after_backend. simpl. rewrite <- app_assoc. simpl.
        split; intros Heq; by simplify_eq.
  - simpl. unfold DrawFrame, BeginFrame, mbind, M_bind.
    rewrite (renderer_backend_nil w _ _ Hr).
    split; intros Heq; discriminate Heq.
Qed.

(** A call on a constructed renderer returns, keeps the renderer
    constructed, and reaches the backend's [Initialize] once if it is an
    [Initialize] and not at all otherwise. *)
Lemma call_constructed w r c :
  initRenderer w = true -> renderer w = Some r -> is_nil_packet c = false ->
  exists err r' l,
    call vulkan_New c w
    = (Ret err,
       {| initRenderer := true; renderer := Some r'; trace := trace w ++ l |})
    /\ backend_initializations l
       = (if is_CInitialize c then 1 else 0)%nat.
Proof.
  intros Hdone Hr Hpacket.
  destruct c as [appName platform| | | | |[p|]]; try discriminate.
  1-5: simpl; unfold Shutdown, BeginFrame, EndFrame, OnResize;
    rewrite ?(Initialize_again vulkan_New w _ _ Hdone),
            ?(renderer_backend_some w r _ _ Hr);
    unfold after_backend; rewrite ?Hdone;
    do 3 eexists; split; reflexivity.
  change (call vulkan_New (CDrawFrame (Some p)) w) with (DrawFrame (Some p) w).
  rewrite (DrawFrame_some w r p Hr), Hdone.
  destruct (RendererBackend.BeginFrame (DeltaTime p) (backend r))
    as [[msg|] b1]; simpl.
  - do 3 eexists; split; reflexivity.
  - destruct (RendererBackend.EndFrame (DeltaTime p) b1) as [[msg|] b2];
      simpl; do 3 eexists; split; reflexivity.
Qed.

Lemma run_constructed cs :
  Forall (fun c => is_nil_packet c = false) cs ->
  forall w r, initRenderer w = true -> renderer w = Some r ->
  exists rs r' l,
    run vulkan_New cs w
    = (rs,
       {| initRenderer := true; renderer := Some r'; trace := trace w ++ l |})
    /\ Forall (fun out => is_Ret out = true) rs
    /\ length rs = length cs
    /\ backend_initializations l = Initialize_calls cs.
Proof.
  induction 1 as [|c cs Hc _ IH]; intros w r Hdone Hr.
  - exists [], r, []. simpl. rewrite app_nil_r.
    destruct w; simpl in *; subst. done.
  - destruct (call_constructed w r c Hdone Hr Hc)
      as (err & r1 & l1 & Hcall & Hl1).
    simpl. rewrite Hcall.
    set (w1 := {| initRenderer := true; renderer := Some r1;
                  trace := trace w ++ l1 |}).
    destruct (IH w1 r1 eq_refl eq_refl)
      as (rs & r' & l & Hrun & Hrs & Hlen & Hl).
    rewrite Hrun. simpl. exists (Ret err :: rs), r', (l1 ++ l).
    split; [by rewrite <- app_assoc|].
    split; [by constructor|]. split; [simpl; by rewrite Hlen|].
    rewrite backend_initializations_app, Hl1, Hl.
    unfold Initialize_calls. destruct c; simpl;
      rewrite ?filter_cons_True, ?filter_cons_False by done; done.
Qed.

(** X1: once a program has run [Initialize], no later call of the package
    panics, whatever the backend answered (the first [Initialize] may have
    failed, a [Shutdown] may have run): every call returns, and the
    singleton stays in place.  The one exception is a [DrawFrame] given a
    nil packet. *)
Theorem X1_no_panic_after_Initialize appName platform cs :
  Forall (fun c => is_nil_packet c = false) cs ->
  let res := run vulkan_New (CInitialize appName platform :: cs) init_world in
  Forall (fun out => is_Ret out = true) res.1
  /\ length res.1 = S (length cs)
  /\ renderer res.2 <> None.
Proof.
  intros Hcs res. subst res. simpl.
  rewrite (Initialize_first vulkan_New init_world appName platform eq_refl).
  simpl.
  set (w1 := {| initRenderer := true; renderer := _; trace := _ |}).
  destruct (run_constructed cs Hcs w1 _ eq_refl eq_refl)
    as (rs & r' & l & Hrun & Hrs & Hlen & _).
  rewrite Hrun. simpl. split; [by constructor|].
  split; [simpl; by rewrite Hlen|]. discriminate.
Qed.

(** X4: in a program that starts with [Initialize], every [Initialize] call
    reaches the backend's [Initialize] exactly once, the first and the
    repeated ones alike, while the backend is constructed once: a program
    with [n] calls of [Initialize] has [n] backend initialisations and one
    construction in its trace. *)
Theorem X4_each_Initialize_reaches_the_backend_once appName platform cs :
  Forall (fun c => is_nil_packet c = false) cs ->
  let program := CInitialize appName platform :: cs in
  let res := run vulkan_New program init_world in
  backend_initializations (trace res.2) = Initialize_calls program
  /\ constructions (trace res.2) = 1%nat.
Proof.
  intros Hcs program res. subst program res.
  split.
  - simpl.
    rewrite (Initialize_first vulkan_New init_world appName platform eq_refl).
    simpl.
    set (w1 := {| initRenderer := true; renderer := _; trace := _ |}).
    destruct (run_constructed cs Hcs w1 _ eq_refl eq_refl)
      as (rs & r' & l & Hrun & _ & _ & Hl).
    rewrite Hrun. simpl.
    change (backend_initializations
              ([EvNew platform; EvInitialize appName] ++ l)
            = Initialize_calls (CInitialize appName platform :: cs)).
    rewrite backend_initializations_app, Hl. reflexivity.
  - destruct (run_keeps vulkan_New cs
                (Initialize vulkan_New appName platform init_world).2)
      as (l & Hl & Hl0).
    { by rewrite (Initialize_first vulkan_New init_world _ _ eq_refl). }
    revert Hl. simpl.
    rewrite (Initialize_first vulkan_New init_world appName platform eq_refl).
    simpl. destruct (run vulkan_New cs _) as [rs w'']. simpl. intros ->.
    change (constructions ([EvNew platform; EvInitialize appName] ++ l) = 1%nat).
    rewrite constructions_app, Hl0. reflexivity.
Qed.

End Programs.

(** ** Goroutines in [Initialize] *)

Section Goroutines.
Context {Platform B : Type} `{!RendererBackend.t B}.
Variable vulkan_New : Platform -> B.

Abbreviation CWorld' := (@CWorld Platform B).
Abbreviation Goroutine' := (@Goroutine Platform B).

Implicit Types (s : CWorld') (g : Goroutine').

(** Replacing one summand of a sum. *)
Lemma sum_list_insert {A : Type} (f : A -> nat) (l : list A) i x y :
  l !! i = Some x ->
  (sum_list (f <$> <[i := y]> l) + f x = sum_list (f <$> l) + f y)%nat.
Proof.
  revert i. induction l as [|a l IH]; intros [|i] Hi; simplify_eq/=.
  - lia.
  - specialize (IH i Hi). lia.
Qed.

Lemma c_measure_move s i g pc :
  c_goroutines s !! i = Some g ->
  (sum_list (c_weight ∘ g_pc <$> <[i := at_pc g pc]> (c_goroutines s))
   + c_weight (g_pc g)
   = c_measure s + c_weight pc)%nat.
Proof.
  intros Hi. unfold c_measure.
  exact (sum_list_insert (c_weight ∘ g_pc) _ i g (at_pc g pc) Hi).
Qed.

(** X7: every step of a goroutine in [Initialize] either leaves the world
    as it is (the goroutine waits for the once, has returned, or does not
    exist) or lowers a measure that starts at seven per goroutine.  So [n]
    concurrent callers make at most [7 * n] steps in all, under every
    schedule: nobody spins or retries. *)
Theorem X7_Initialize_steps_are_bounded
    (args : list (string * Platform)) i s :
  c_measure (@c_init Platform B args) = (7 * length args)%nat
  /\ (c_step vulkan_New i s = s
      \/ (c_measure (c_step vulkan_New i s) < c_measure s)%nat).
Proof.
  split.
  - unfold c_measure. simpl.
    induction args as [|arg args IH]; [done|].
    rewrite !fmap_cons. simpl. rewrite IH. lia.
  - unfold c_step.
    destruct (c_goroutines s !! i) as [g|] eqn:Hi; [|by left].
    pose proof (c_measure_move s i g) as Hmove.
    destruct (g_pc g) as [| |b| | | |err|res] eqn:Hpc.
    + destruct (c_once s); [right|by left|right]; unfold c_measure at 1;
        simpl; [specialize (Hmove PcInDo Hi)|specialize (Hmove PcAfterDo Hi)];
        simpl in Hmove; lia.
    + right. unfold c_measure at 1. simpl.
      specialize (Hmove (PcBuilt (vulkan_New (g_platform g))) Hi).
      simpl in Hmove. lia.
    + right. unfold c_measure at 1. simpl.
      specialize (Hmove PcAssigned Hi).
      simpl in Hmove. lia.
    + right. unfold c_measure at 1. simpl.
      specialize (Hmove PcAfterDo Hi).
      simpl in Hmove. lia.
    + right. destruct (c_renderer s) as [r|].
      * unfold c_measure at 1. simpl.
        specialize (Hmove PcInBackend Hi).
        simpl in Hmove. lia.
      * unfold c_measure at 1. simpl.
        specialize (Hmove (PcReturned Panicked) Hi).
        simpl in Hmove. lia.
    + destruct (c_renderer s) as [r|]; [right|by left].
      destruct (RendererBackend.Initialize (g_appName g) (backend r))
        as [err b']. unfold c_measure at 1. simpl.
      specialize (Hmove (PcAnswered err) Hi).
      simpl in Hmove. lia.
    + right. unfold c_measure at 1. simpl.
      specialize (Hmove (PcReturned (Ret err)) Hi).
      simpl in Hmove. lia.
    + by left.
Qed.

(** X5: while the function given to [Do] runs, a step of any goroutine
    other than the first caller changes nothing: every other caller of
    [Initialize] waits at the once and cannot reach the backend before the
    construction is complete. *)
Theorem X5_other_callers_wait_while_Do_runs
    (args : list (string * Platform)) schedule k i :
  let s := c_run vulkan_New schedule (c_init args) in
  first_caller (length args) schedule = Some k ->
  c_once s = Running -> i <> k ->
  c_step vulkan_New i s = s.
Proof.
  intros s Hfirst Honce Hne. subst s.
  pose proof (c_run_from_init vulkan_New args schedule) as Hrun.
  rewrite Hfirst in Hrun.
  by apply (c_step_blocked vulkan_New args k i).
Qed.

(** *** Calls made, calls answered, calls returned *)

Lemma backend_initializations_Initialize (called : list string) :
  backend_initializations (Platform := Platform) (EvInitialize <$> called)
  = length called.
Proof.
  induction called as [|a called IH]; [done|].
  rewrite fmap_cons. unfold backend_initializations in *.
  rewrite filter_cons_True by done. simpl. by rewrite IH.
Qed.

Lemma length_omap_le {A C D : Type} (f : A -> option C) (f' : A -> option D)
    (l : list A) :
  Forall (fun x => is_Some (f x) -> is_Some (f' x)) l ->
  (length (omap f l) <= length (omap f' l))%nat.
Proof.
  induction 1 as [|x l Hx _ IH]; [done|]. simpl.
  destruct (f x) as [c|] eqn:Hf.
  - destruct (Hx (mk_is_Some _ _ eq_refl)) as [d Hd]. rewrite Hd.
    simpl. apply le_n_S. exact IH.
  - destruct (f' x); simpl; [apply le_S|]; exact IH.
Qed.

Lemma c_returned_le_answered (gs : list Goroutine') :
  Forall (fun g => g_pc g <> PcReturned Panicked) gs ->
  (sum_list ((fun g => if has_returned (g_pc g) then 1 else 0)%nat <$> gs)
   <= length (omap answered gs))%nat.
Proof.
  induction 1 as [|g gs Hg _ IH]; [done|]. rewrite fmap_cons. simpl.
  unfold answered at 1.
  destruct (g_pc g) as [| |b| | | |err|[err|]]; simpl;
    first [done | exact IH | apply le_S, IH | apply le_n_S, IH].
Qed.

Lemma length_called_all (gs : list Goroutine') :
  Forall (fun g => g_pc g <> PcReturned Panicked) gs ->
  Forall (fun g => has_returned (g_pc g) = true) gs ->
  length (omap called_name gs) = length gs.
Proof.
  induction 1 as [|g gs Hg _ IH]; intros Hret; [done|].
  apply Forall_cons in Hret as [Hr Hrest]. simpl. unfold called_name at 1.
  destruct (g_pc g) as [| |b| | | |err|[err|]]; try discriminate.
  - simpl. f_equal. by apply IH.
  - done.
Qed.

(** The goroutines of a run are the callers it was started with, none has
    panicked, and the trace holds one [Initialize] call for each goroutine
    that has made its call. *)
Lemma c_run_called args schedule :
  let s := c_run vulkan_New schedule (c_init args) in
  length (c_goroutines s) = length args
  /\ Forall (fun g => g_pc g <> PcReturned Panicked) (c_goroutines s)
  /\ backend_initializations (c_trace s) = length (c_called s).
Proof.
  intros s. subst s.
  pose proof (c_run_from_init vulkan_New args schedule) as Hrun.
  destruct (first_caller (length args) schedule) as [k|].
  - destruct Hrun as (Hargs & gk & Hk & Hinv).
    set (s := c_run vulkan_New schedule (c_init args)) in *.
    split; [by rewrite <- Hargs, length_fmap|].
    destruct (c_once s) eqn:Honce; [done| |].
    + destruct Hinv as [Hothers Hpc].
      assert (Hquiet : forall j g, c_goroutines s !! j = Some g ->
                g_pc g = PcCall \/ building (g_pc g) = true).
      { intros j g Hj. destruct (decide (j = k)) as [->|Hne].
        - simplify_eq. right. by destruct (g_pc gk).
        - left. eauto. }
      split.
      { apply Forall_lookup. intros j g Hj.
        by destruct (Hquiet j g Hj) as [-> | Hb]; [|destruct (g_pc g)]. }
      unfold c_called. rewrite omap_nothing.
      * destruct (g_pc gk); try done.
        -- by destruct Hpc as [_ ->].
        -- by destruct Hpc as (_ & _ & ->).
        -- by destruct Hpc as [_ ->].
      * intros j g Hj. unfold called_name.
        by destruct (Hquiet j g Hj) as [-> | Hb]; [|destruct (g_pc g)].
    + destruct Hinv as (called & done & r & w' & -> & Hcalled & _ & _ & _
                        & _ & _ & Hall).
      split.
      { apply Forall_lookup. intros j g Hj. by destruct (Hall j g Hj). }
      rewrite <- Hcalled.
      change (EvNew (g_platform gk) :: (EvInitialize <$> called))
        with ([EvNew (g_platform gk)] ++ (EvInitialize <$> called)).
      by rewrite backend_initializations_app,
                 backend_initializations_Initialize.
  - rewrite Hrun. simpl. split; [by rewrite length_fmap|]. split.
    + apply Forall_fmap, Forall_forall. by intros x _.
    + unfold c_called. simpl. rewrite omap_nothing; [done|].
      intros j g Hj. rewrite list_lookup_fmap in Hj.
      destruct (args !! j); by simplify_eq/=.
Qed.

(** X8: under every schedule, the backend's [Initialize] has been called
    exactly as often as there are goroutines that have made their call
    (they are inside it or past it); the backend has acted on no more calls
    than were made, and no more goroutines have returned than it has acted
    for.  When all the callers have returned, the backend's [Initialize]
    has been called once for each of them. *)
Theorem X8_one_backend_Initialize_per_caller
    (args : list (string * Platform)) schedule :
  let s := c_run vulkan_New schedule (c_init args) in
  backend_initializations (c_trace s) = length (c_called s)
  /\ (c_returned s <= length (c_answered s))%nat
  /\ (length (c_answered s) <= length (c_called s))%nat
  /\ (Forall (fun g => has_returned (g_pc g) = true) (c_goroutines s) ->
      backend_initializations (c_trace s) = length args).
Proof.
  intros s. destruct (c_run_called args schedule) as (Hlen & Hpanic & Hcalls).
  fold s in Hlen, Hpanic, Hcalls.
  split; [exact Hcalls|]. split; [by apply c_returned_le_answered|]. split.
  - apply length_omap_le, Forall_forall. intros g _ [x Hx].
    unfold answered in Hx. unfold called_name.
    destruct (g_pc g) as [| |b| | | |err|[err|]]; by simplify_eq.
  - intros Hret. rewrite Hcalls. unfold c_called.
    by rewrite (length_called_all _ Hpanic Hret).
Qed.

(** *** Goroutines that run one after another *)

Lemma c_run_app schedule1 schedule2 s :
  c_run vulkan_New (schedule1 ++ schedule2) s
  = c_run vulkan_New schedule2 (c_run vulkan_New schedule1 s).
Proof. unfold c_run. apply foldl_app. Qed.

Lemma c_run_cons i schedule s :
  c_run vulkan_New (i :: schedule) s
  = c_run vulkan_New schedule (c_step vulkan_New i s).
Proof. reflexivity. Qed.

(** A step of the goroutine that stands after [done] in the list. *)
Lemma c_step_middle (done rest : list Goroutine') g once cr t :
  let put pc := done ++ at_pc g pc :: rest in
  let s := {| c_once := once; c_renderer := cr; c_trace := t;
              c_goroutines := done ++ g :: rest |} in
  c_step vulkan_New (length done) s
  = match g_pc g with
    | PcCall =>
        match once with
        | Fresh => {| c_once := Running; c_renderer := cr; c_trace := t;
                      c_goroutines := put PcInDo |}
        | Running => s
        | Done => {| c_once := Done; c_renderer := cr; c_trace := t;
                     c_goroutines := put PcAfterDo |}
        end
    | PcInDo =>
        {| c_once := once; c_renderer := cr;
           c_trace := t ++ [EvNew (g_platform g)];
           c_goroutines := put (PcBuilt (vulkan_New (g_platform g))) |}
    | PcBuilt b =>
        {| c_once := once; c_renderer := Some {| backend := b |};
           c_trace := t; c_goroutines := put PcAssigned |}
    | PcAssigned =>
        {| c_once := Done; c_renderer := cr; c_trace := t;
           c_goroutines := put PcAfterDo |}
    | PcAfterDo =>
        match cr with
        | None => {| c_once := once; c_renderer := None; c_trace := t;
                     c_goroutines := put (PcReturned Panicked) |}
        | Some _ => {| c_once := once; c_renderer := cr;
                       c_trace := t ++ [EvInitialize (g_appName g)];
                       c_goroutines := put PcInBackend |}
        end
    | PcInBackend =>
        match cr with
        | None => s
        | Some r =>
            let init :=
              RendererBackend.Initialize (g_appName g) (backend r) in
            {| c_once := once; c_renderer := Some {| backend := init.2 |};
               c_trace := t; c_goroutines := put (PcAnswered init.1) |}
        end
    | PcAnswered err =>
        {| c_once := once; c_renderer := cr; c_trace := t;
           c_goroutines := put (PcReturned (Ret err)) |}
    | PcReturned _ => s
    end.
Proof.
  intros put s. subst put s.
  assert (Hmove : forall g' : Goroutine',
            <[length done := g']> (done ++ g :: rest) = done ++ g' :: rest).
  { intros g'. rewrite insert_app_r_alt by lia. by rewrite Nat.sub_diag. }
  unfold c_step. simpl. rewrite list_lookup_middle by done.
  destruct (g_pc g), once, cr; rewrite ?Hmove; try reflexivity;
    destruct (RendererBackend.Initialize _ _); simpl; by rewrite ?Hmove.
Qed.

Ltac step_middle :=
  rewrite c_run_cons, c_step_middle;
  cbn [g_pc g_appName g_platform at_pc spawn fst snd].

(** The first caller goes through the once. *)
Lemma c_run_through_Do (done rest : list Goroutine') arg :
  c_run vulkan_New (replicate 4 (length done))
    {| c_once := Fresh; c_renderer := None; c_trace := [];
       c_goroutines := done ++ spawn arg :: rest |}
  = {| c_once := Done;
       c_renderer := Some {| backend := vulkan_New arg.2 |};
       c_trace := [EvNew arg.2];
       c_goroutines := done ++ at_pc (spawn arg) PcAfterDo :: rest |}.
Proof.
  change (replicate 4 (length done))
    with [length done; length done; length done; length done].
  do 4 step_middle. reflexivity.
Qed.

(** A caller past the once calls the backend and returns. *)
Lemma c_run_backend_call (done rest : list Goroutine') arg r t :
  let init := RendererBackend.Initialize arg.1 (backend r) in
  c_run vulkan_New (replicate 3 (length done))
    {| c_once := Done; c_renderer := Some r; c_trace := t;
       c_goroutines := done ++ at_pc (spawn arg) PcAfterDo :: rest |}
  = {| c_once := Done; c_renderer := Some {| backend := init.2 |};
       c_trace := t ++ [EvInitialize arg.1];
       c_goroutines :=
         done ++ at_pc (spawn arg) (PcReturned (Ret init.1)) :: rest |}.
Proof.
  intros init.
  change (replicate 3 (length done))
    with [length done; length done; length done].
  do 3 step_middle. reflexivity.
Qed.

(** A caller that has returned stays where it is. *)
Lemma c_run_returned (done rest : list Goroutine') g once cr t n res :
  g_pc g = PcReturned res ->
  c_run vulkan_New (replicate n (length done))
    {| c_once := once; c_renderer := cr; c_trace := t;
       c_goroutines := done ++ g :: rest |}
  = {| c_once := once; c_renderer := cr; c_trace := t;
       c_goroutines := done ++ g :: rest |}.
Proof.
  intros Hpc. induction n as [|n IH]; [reflexivity|].
  simpl replicate. rewrite c_run_cons, c_step_middle, Hpc. exact IH.
Qed.

(** A goroutine that calls [Initialize] when the once is done. *)
Lemma c_run_later (done rest : list Goroutine') arg r t :
  let init := RendererBackend.Initialize arg.1 (backend r) in
  c_run vulkan_New (replicate 7 (length done))
    {| c_once := Done; c_renderer := Some r; c_trace := t;
       c_goroutines := done ++ spawn arg :: rest |}
  = {| c_once := Done; c_renderer := Some {| backend := init.2 |};
       c_trace := t ++ [EvInitialize arg.1];
       c_goroutines :=
         (done ++ [at_pc (spawn arg) (PcReturned (Ret init.1))]) ++ rest |}.
Proof.
  intros init.
  change (replicate 7 (length done))
    with ([length done] ++ replicate 3 (length done)
            ++ replicate 3 (length done)).
  rewrite !c_run_app. rewrite c_run_cons, c_step_middle.
  cbn [g_pc spawn]. change (c_run vulkan_New [] ?s) with s.
  rewrite (c_run_backend_call done rest arg r t). fold init.
  rewrite (c_run_returned done rest _ _ _ _ 3 (Ret init.1)) by reflexivity.
  by rewrite <- app_assoc.
Qed.

(** The first goroutine, from the start. *)
Lemma c_run_first (rest : list Goroutine') arg :
  let init := RendererBackend.Initialize arg.1 (vulkan_New arg.2) in
  c_run vulkan_New (replicate 7 0%nat)
    {| c_once := Fresh; c_renderer := None; c_trace := [];
       c_goroutines := spawn arg :: rest |}
  = {| c_once := Done; c_renderer := Some {| backend := init.2 |};
       c_trace := [EvNew arg.2; EvInitialize arg.1];
       c_goroutines :=
         [at_pc (spawn arg) (PcReturned (Ret init.1))] ++ rest |}.
Proof.
  intros init.
  change (replicate 7 0%nat) with (replicate 4 0%nat ++ replicate 3 0%nat).
  rewrite c_run_app.
  pose proof (c_run_through_Do [] rest arg) as Hdo.
  pose proof (c_run_backend_call [] rest arg
                {| backend := vulkan_New arg.2 |} [EvNew arg.2]) as Hcall.
  cbn [length app] in Hdo, Hcall. rewrite Hdo. exact Hcall.
Qed.

Lemma c_run_in_turn_later (rest : list (string * Platform)) :
  forall (done : list Goroutine') w r,
    initRenderer w = true -> renderer w = Some r ->
    let s := c_run vulkan_New (in_turn (length done) (length rest))
               {| c_once := Done; c_renderer := Some r; c_trace := trace w;
                  c_goroutines := done ++ (spawn <$> rest) |} in
    let res := run vulkan_New (calls_of rest) w in
    c_trace s = trace res.2
    /\ c_renderer s = renderer res.2
    /\ g_pc <$> c_goroutines s = (g_pc <$> done) ++ (PcReturned <$> res.1).
Proof.
  induction rest as [|arg rest IH]; intros done w r Hdone Hr.
  - simpl. rewrite !app_nil_r. done.
  - unfold in_turn. simpl seq. rewrite bind_cons, c_run_app.
    rewrite fmap_cons. rewrite (c_run_later done (spawn <$> rest) arg r).
    unfold calls_of. rewrite fmap_cons. simpl run.
    rewrite (Initialize_again vulkan_New w _ _ Hdone),
            (renderer_backend_some w r _ _ Hr).
    set (init := RendererBackend.Initialize arg.1 (backend r)).
    set (g := at_pc (spawn arg) (PcReturned (Ret init.1))).
    specialize (IH (done ++ [g])
                  (after_backend w (EvInitialize arg.1) init.2)
                  {| backend := init.2 |} Hdone eq_refl).
    rewrite length_app in IH. simpl in IH.
    replace (length done + 1)%nat with (S (length done)) in IH by lia.
    destruct IH as (Htrace & Hrenderer & Hpcs).
    fold (in_turn (S (length done)) (length rest)).
    fold (calls_of rest).
    destruct (run vulkan_New (calls_of rest) _) as [rs w'] eqn:Hrun.
    simpl in *. rewrite Htrace, Hrenderer, Hpcs.
    rewrite fmap_app, <- app_assoc. done.
Qed.

(** X9: goroutines that make their [Initialize] calls one after another
    leave what the same calls made in a row by one caller leave: the same
    trace, the same singleton and backend state, and the same results in the
    same order.  The once adds nothing but the exclusion. *)
Theorem X9_goroutines_in_turn_agree_with_sequential_calls
    (args : list (string * Platform)) :
  let s := c_run vulkan_New (in_turn 0 (length args)) (c_init args) in
  let res := run vulkan_New (calls_of args) init_world in
  c_trace s = trace res.2
  /\ c_renderer s = renderer res.2
  /\ g_pc <$> c_goroutines s = PcReturned <$> res.1.
Proof.
  destruct args as [|arg args]; [done|].
  unfold in_turn. simpl seq. rewrite bind_cons, c_run_app.
  fold (in_turn 1 (length args)).
  unfold calls_of. rewrite fmap_cons. fold (calls_of args). simpl run.
  rewrite (Initialize_first vulkan_New init_world arg.1 arg.2 eq_refl).
  set (init := RendererBackend.Initialize arg.1 (vulkan_New arg.2)).
  set (w1 := {| initRenderer := true; renderer := _; trace := _ |}).
  unfold c_init. rewrite fmap_cons.
  rewrite (c_run_first (spawn <$> args) arg). fold init.
  destruct (c_run_in_turn_later args
              [at_pc (spawn arg) (PcReturned (Ret init.1))] w1
              {| backend := init.2 |} eq_refl eq_refl)
    as (Htrace & Hrenderer & Hpcs).
  simpl in Htrace, Hrenderer, Hpcs.
  destruct (run vulkan_New (calls_of args) w1) as [rs w'] eqn:Hrun.
  simpl in *. by rewrite Htrace, Hrenderer, Hpcs.
Qed.

End Goroutines.

(** ** Concrete runs of the further properties *)

(** X1, witness: a first [Initialize] that fails, then a shutdown, a frame
    begun, a frame drawn and a resize: five results, no panic. *)
Lemma X1_witness :
  let cs := [CShutdown; CBeginFrame 0.5%float;
             CDrawFrame (Some {| DeltaTime := 0.5%float |});
             COnResize 800 600] in
  let res := run Scripted.New (CInitialize "app" [Some "no device"] :: cs)
               init_world in
  Forall (fun c => is_nil_packet c = false) cs
  /\ res.1 = [Ret (Some "no device"); Ret None; Ret None; Ret None; Ret None]
  /\ renderer res.2 <> None.
Proof.
  assert (Hcs : Forall (fun c : Call (Platform := list error) =>
                          is_nil_packet c = false)
                  [CShutdown; CBeginFrame 0.5%float;
                   CDrawFrame (Some {| DeltaTime := 0.5%float |});
                   COnResize 800 600])
    by (repeat constructor).
  split; [exact Hcs|]. split; [reflexivity|].
  exact (proj2 (proj2 (X1_no_panic_after_Initialize Scripted.New
                         "app" [Some "no device"] _ Hcs))).
Defined.

(** X3, witness: a frame on a backend that accepts everything. *)
Lemma X3_witness :
  let w := Fixtures.ready [] in
  let p := {| DeltaTime := 0.5%float |} in
  DrawFrame (Some p) w = (Ret None, (DrawFrame (Some p) w).2)
  /\ run Scripted.New [CBeginFrame 0.5%float; CEndFrame 0.5%float] w
     = ([Ret None; Ret None], (DrawFrame (Some p) w).2).
Proof.
  split; [reflexivity|].
  exact (proj1 (X3_DrawFrame_nil_iff_BeginFrame_EndFrame_nil Scripted.New
                  (Fixtures.ready []) {| DeltaTime := 0.5%float |} _)
           eq_refl).
Defined.

(** X4, witness: three [Initialize] calls with a shutdown in between. *)
Lemma X4_witness :
  let cs := [CInitialize "app" [Some "x"]; CShutdown; CInitialize "again" []] in
  let res := run Scripted.New (CInitialize "app" [] :: cs) init_world in
  Forall (fun c => is_nil_packet c = false) cs
  /\ backend_initializations (trace res.2) = 3%nat
  /\ constructions (trace res.2) = 1%nat.
Proof.
  assert (Hcs : Forall (fun c : Call (Platform := list error) =>
                          is_nil_packet c = false)
                  [CInitialize "app" [Some "x"]; CShutdown;
                   CInitialize "again" []])
    by (repeat constructor).
  split; [exact Hcs|].
  exact (X4_each_Initialize_reaches_the_backend_once Scripted.New
           "app" [] _ Hcs).
Defined.

(** X5, witness: goroutine 1 is in the middle of the construction; a step
    of goroutine 0 changes nothing. *)
Lemma X5_witness :
  let args := [("a", [Some "zero"]); ("b", [])] in
  let s := c_run Scripted.New [1; 1]%nat (c_init args) in
  c_once s = Running
  /\ c_renderer s = None
  /\ c_step Scripted.New 0 s = s.
Proof.
  do 2 (split; [reflexivity|]).
  apply (X5_other_callers_wait_while_Do_runs Scripted.New
           [("a", [Some "zero"]); ("b", [])] [1; 1]%nat 1%nat 0%nat);
    [reflexivity | reflexivity | lia].
Defined.

(** X6, witness: in that same world somebody can move, although goroutine 0
    cannot. *)
Lemma X6_witness :
  let args := [("a", [Some "zero"]); ("b", [])] in
  let s := c_run Scripted.New [1; 1]%nat (c_init args) in
  c_goroutines s !! 0%nat = Some (spawn ("a", [Some "zero"]))
  /\ exists j, c_step Scripted.New j s <> s.
Proof.
  split; [reflexivity|].
  apply (c_run_progress Scripted.New
           [("a", [Some "zero"]); ("b", [])] [1; 1]%nat 0%nat
           (spawn ("a", [Some "zero"])) eq_refl).
  intros res Hres. discriminate Hres.
Defined.
